(** * A shallow embedding of [code/cli/train.py]

    The training script of the translation model: the sequence
    preprocessor, the batch collator, the evaluation pass and the
    training loop of [main].  The model, the tokenizer, the metric and
    the experiment logger are outside collaborators; they appear here as
    section variables, and every call that the script makes to them is
    kept in a call history so that the order of the calls can be stated.

    Conventions.
    - Python integers are [Z]; [%] and [/] raise [ZeroDivisionError] on a
      zero divisor, which is written out in [py_mod] and [py_truediv].
    - A Python float that comes out of a division of two integers and is
      only logged is kept as the exact rational ([Q]); the quotient of
      line 448, whose ceiling becomes the number of epochs, is rounded to
      binary64 as Python rounds it ([py_truediv_float]).
    - An exception is identified by the name of its class. *)

From Stdlib Require Import ZArith QArith Qround Ascii String List Lia.
From stdpp Require Import gmap strings list.
Import ListNotations.

Local Open Scope string_scope.
Local Open Scope list_scope.
Local Open Scope Z_scope.

(** ** Results and exceptions *)

Inductive result (A : Type) : Type :=
| Ok (a : A)
| Raise (cls : string).
Arguments Ok {A} a.
Arguments Raise {A} cls.

Definition ZeroDivisionError : string := "ZeroDivisionError".
Definition KeyError : string := "KeyError".
Definition UnboundLocalError : string := "UnboundLocalError".

(** [a % b] on Python integers: the sign follows the divisor, as for
    [Z.modulo]; a zero divisor raises. *)
Definition py_mod (a b : Z) : result Z :=
  if b =? 0 then Raise ZeroDivisionError else Ok (a mod b).

(** [a / b] on Python integers (true division). *)
Definition py_truediv (a b : Z) : result Q :=
  if b =? 0 then Raise ZeroDivisionError else Ok (inject_Z a / inject_Z b)%Q.

(** *** The float that [a / b] is

    The quotient of two Python integers is the binary64 number nearest
    to the exact quotient, ties going to the even mantissa; a quotient
    beyond the largest float raises [OverflowError]. *)

(** The integer nearest to [num / den], ties to the even one ([0 < den]). *)
Definition round_half_even (num den : Z) : Z :=
  let q := num / den in
  let r := num mod den in
  if 2 * r <? den then q
  else if den <? 2 * r then q + 1
  else if Z.even q then q else q + 1.

(** [floor (log2 (a / b))] for positive [a] and [b]. *)
Definition quotient_exponent (a b : Z) : Z :=
  let d := Z.log2 a - Z.log2 b in
  if b * 2 ^ Z.max 0 d <=? a * 2 ^ Z.max 0 (- d) then d else d - 1.

(** The mantissa and the exponent of the float nearest to [a / b], for
    positive [a] and [b]: 53 bits of mantissa, fewer below the smallest
    normal number. *)
Definition nearest_binary64 (a b : Z) : Z * Z :=
  let e := Z.max (quotient_exponent a b - 52) (-1074) in
  (round_half_even (a * 2 ^ Z.max 0 (- e)) (b * 2 ^ Z.max 0 e), e).

(** [mantissa * 2 ^ exponent] *)
Definition binary64_value (me : Z * Z) : Q :=
  (inject_Z (fst me * 2 ^ Z.max 0 (snd me))
   / inject_Z (2 ^ Z.max 0 (- snd me)))%Q.

Definition py_truediv_float (a b : Z) : result Q :=
  if b =? 0 then Raise ZeroDivisionError
  else if a =? 0 then Ok 0%Q
  else
    let me := nearest_binary64 (Z.abs a) (Z.abs b) in
    if 2 ^ 1024 * 2 ^ Z.max 0 (- snd me) <=? fst me * 2 ^ Z.max 0 (snd me)
    then Raise "OverflowError"
    else
      let v := binary64_value me in
      Ok (if Z.sgn a =? Z.sgn b then v else - v)%Q.

(** [d[k]] on a dictionary. *)
Definition getitem {V} (d : gmap string V) (k : string) : result V :=
  match d !! k with
  | Some v => Ok v
  | None => Raise KeyError
  end.

(** [len(xs)] *)
Definition len {A} (xs : list A) : Z := Z.of_nat (length xs).

(** ** Tensors of token ids *)

Definition tensor2 := list (list Z).
Definition mask2 := list (list bool).

(** [t == x] and [t != x], elementwise against a scalar. *)
Definition tensor_eq_scalar (t : tensor2) (x : Z) : mask2 :=
  map (map (fun v => v =? x)) t.
Definition tensor_ne_scalar (t : tensor2) (x : Z) : mask2 :=
  map (map (fun v => negb (v =? x))) t.

(** [a == b], elementwise on two tensors of one shape. *)
Definition tensor_eq (a b : tensor2) : mask2 :=
  zip_with (zip_with Z.eqb) a b.

(** [t.masked_select(m)]: the entries of [t] where [m] holds, row-major. *)
Definition masked_select (t m : mask2) : list bool :=
  concat (zip_with (fun row mrow =>
            map fst (filter (fun p => snd p = true) (zip row mrow))) t m).

(** [m.sum().item()] on a boolean tensor. *)
Definition count_true (bs : list bool) : Z :=
  fold_left (fun n b => if b : bool then n + 1 else n) bs 0.
Definition mask_sum (m : mask2) : Z := count_true (concat m).

(** ** The tokenizer collaborator *)

Record Tokenizer := {
  pad_token_id : Z;
  (** [tokenizer(texts, max_length=n, truncation=True, padding=True)["input_ids"]];
      the flag says whether the call is made inside
      [with tokenizer.as_target_tokenizer()]. *)
  tokenize : bool -> list string -> Z -> list (list Z);
  (** [tokenizer(text)["input_ids"]] on one text. *)
  encode : string -> list Z;
  (** [tokenizer.batch_decode(ids, skip_special_tokens=True)] *)
  batch_decode : list (list Z) -> list string;
}.

(** ** [preprocess_function] *)

Record ModelInputs := {
  mi_input_ids : list (list Z);
  mi_labels : list (list Z);
}.

Definition task_prefix : string := "translate English to German: ".

(** [[f(ex[lang]) for ex in translation]]: the first missing key raises. *)
Fixpoint texts_of (f : string -> string) (lang : string)
    (translation : list (gmap string string)) : result (list string) :=
  match translation with
  | [] => Ok []
  | ex :: rest =>
      match getitem ex lang with
      | Raise e => Raise e
      | Ok t =>
          match texts_of f lang rest with
          | Raise e => Raise e
          | Ok ts => Ok (f t :: ts)
          end
      end
  end.

(** [examples] is the dictionary with the single key "translation".  The
    tokenizer also returns an attention mask, which nothing downstream
    reads; [model_inputs] keeps the ids and the labels. *)
Definition preprocess_function
    (examples : gmap string (list (gmap string string)))
    (source_lang target_lang : string) (max_seq_length : Z)
    (tokenizer : Tokenizer) : result ModelInputs :=
  match getitem examples "translation" with
  | Raise e => Raise e
  | Ok translation =>
      match texts_of (String.append task_prefix) source_lang translation with
      | Raise e => Raise e
      | Ok inputs =>
          match texts_of (fun t => t) target_lang translation with
          | Raise e => Raise e
          | Ok targets =>
              let model_inputs :=
                tokenize tokenizer false inputs max_seq_length in
              let target_ids :=
                tokenize tokenizer true targets max_seq_length in
              Ok {| mi_input_ids := model_inputs; mi_labels := target_ids |}
          end
      end
  end.

(** ** [collation_function_for_seq2seq] *)

Record Example := {
  ex_input_ids : list Z;
  ex_labels : list Z;
}.

Record Batch := {
  input_ids : tensor2;
  labels : tensor2;
  encoder_padding_mask : mask2;
}.

(** Modelled from the spec: [utils.pad] of the [transformer_mt] package,
    which is not among the sources.  The spec (section 4.2) has it
    compute the longest length of the list and right-pad every sequence
    to that length with the pad id. *)
Definition max_len (sequence_list : list (list Z)) : nat :=
  fold_right (fun s m => Nat.max (length s) m) 0%nat sequence_list.

Definition pad (sequence_list : list (list Z)) (pad_id : Z) : tensor2 :=
  let m := max_len sequence_list in
  map (fun s => s ++ repeat pad_id (m - length s)%nat) sequence_list.

Definition collation_function_for_seq2seq (batch : list Example)
    (pad_token_id : Z) : Batch :=
  let input_ids_list := map ex_input_ids batch in
  let labels_list := map ex_labels batch in
  let collated_input_ids := pad input_ids_list pad_token_id in
  let collated_labels := pad labels_list pad_token_id in
  {| input_ids := collated_input_ids;
     labels := collated_labels;
     encoder_padding_mask := tensor_eq_scalar collated_input_ids pad_token_id |}.

(** ** Choice of the evaluation split (line 409 of [main]) *)

Definition select_eval_dataset {D} (processed_datasets : gmap string D)
    : result D :=
  match processed_datasets !! "validaion" with
  | Some _ => getitem processed_datasets "validation"
  | None => getitem processed_datasets "test"
  end.

(** ** The [DataLoader] of the evaluation set

    [DataLoader(dataset, shuffle=False, collate_fn=..., batch_size=n)]:
    the constructor refuses a batch size that is not positive; iteration
    cuts the dataset into consecutive chunks of [n] examples (the last
    one may be shorter) and collates each of them. *)

Record DataLoader := {
  dataset : list Example;
  batch_size : positive;
  collate_pad_id : Z;
}.

Definition make_dataloader (ds : list Example) (n : Z) (pad_id : Z)
    : result DataLoader :=
  match n with
  | Zpos p => Ok {| dataset := ds; batch_size := p; collate_pad_id := pad_id |}
  | _ => Raise "ValueError"
  end.

Fixpoint chunks_fuel {A} (fuel : nat) (n : nat) (xs : list A) : list (list A) :=
  match fuel with
  | O => []
  | S fuel' =>
      match xs with
      | [] => []
      | _ :: _ => firstn n xs :: chunks_fuel fuel' n (skipn n xs)
      end
  end.

Definition chunks {A} (n : nat) (xs : list A) : list (list A) :=
  chunks_fuel (length xs) n xs.

(** [for batch in dataloader] *)
Definition batches_of (dl : DataLoader) : list Batch :=
  map (fun c => collation_function_for_seq2seq c (collate_pad_id dl))
      (chunks (Pos.to_nat (batch_size dl)) (dataset dl)).

(** ** The model, the metric and the state they live in *)

(** [P] is the state of the model, the optimizer and the scheduler.  The
    boolean given to [forward] and [generate] is [model.training]. *)
Record Model (P : Type) := {
  (** [model(input_ids=..., labels=...)]: [logits.argmax(-1)] and the loss *)
  forward : P -> bool -> tensor2 -> tensor2 -> tensor2 * Q;
  (** [loss.backward(); optimizer.step(); lr_scheduler.step();
      optimizer.zero_grad()] *)
  update : P -> tensor2 -> tensor2 -> P;
  (** [optimizer.param_groups[0]["lr"]] *)
  learning_rate : P -> Q;
  (** [model.generate(input_ids, max_length=..., num_beams=...)] *)
  generate : P -> bool -> tensor2 -> Z -> Z -> result tensor2;
}.
Arguments forward {P}.
Arguments update {P}.
Arguments learning_rate {P}.
Arguments generate {P}.

(** The calls made to the collaborators, in the order they are made. *)
Inductive call :=
| CallEval
| CallTrain
| CallGenerate (training : bool) (ids : tensor2) (max_length num_beams : Z)
| CallAddBatch (predictions : list string) (references : list (list string))
| CallCompute (predictions : list string) (references : list (list string))
| CallOptimizerStep (global_step : Z)
| CallWandbLog (entries : list (string * Q)) (step : Z)
| CallSavePretrained.

Record world (P : Type) := {
  params : P;
  training : bool;
  (** the cache of the module-level [bleu] metric *)
  bleu_predictions : list string;
  bleu_references : list (list string);
  history : list call;
}.
Arguments params {P}.
Arguments training {P}.
Arguments bleu_predictions {P}.
Arguments bleu_references {P}.
Arguments history {P}.

Definition record {P} (c : call) (w : world P) : world P :=
  {| params := params w; training := training w;
     bleu_predictions := bleu_predictions w;
     bleu_references := bleu_references w;
     history := history w ++ [c] |}.

Definition set_training {P} (b : bool) (w : world P) : world P :=
  {| params := params w; training := b;
     bleu_predictions := bleu_predictions w;
     bleu_references := bleu_references w;
     history := history w |}.

Definition set_params {P} (p : P) (w : world P) : world P :=
  {| params := p; training := training w;
     bleu_predictions := bleu_predictions w;
     bleu_references := bleu_references w;
     history := history w |}.

Definition set_bleu {P} (ps : list string) (rs : list (list string))
    (w : world P) : world P :=
  {| params := params w; training := training w;
     bleu_predictions := ps; bleu_references := rs;
     history := history w |}.

(** Computations that read and write the world and may raise. *)
Definition M (P A : Type) : Type := world P -> result A * world P.

Definition ret {P A} (a : A) : M P A := fun w => (Ok a, w).

Definition bind {P A B} (m : M P A) (k : A -> M P B) : M P B :=
  fun w =>
    match m w with
    | (Ok a, w') => k a w'
    | (Raise e, w') => (Raise e, w')
    end.

Definition lift {P A} (r : result A) : M P A := fun w => (r, w).

Notation "x <- c1 ;; c2" := (bind c1 (fun x => c2))
  (at level 100, c1 at next level, right associativity).
Notation "c1 ;; c2" := (bind c1 (fun _ => c2))
  (at level 100, right associativity).

(** [for x in xs: s = body(s, x)], where the body may raise. *)
Fixpoint for_each {P A S} (body : S -> A -> M P S) (xs : list A) (s : S)
    : M P S :=
  match xs with
  | [] => ret s
  | x :: rest => s' <- body s x ;; for_each body rest s'
  end.

(** Modelled from the spec: [utils.postprocess_text] of the
    [transformer_mt] package, which is not among the sources.  The spec
    (section 4.4) has it trim the whitespace around every prediction and
    reference and wrap each reference in a one-element list. *)
Definition is_space (c : ascii) : bool :=
  let n := nat_of_ascii c in
  ((9 <=? n)%nat && (n <=? 13)%nat) || (n =? 32)%nat.

Fixpoint lstrip (cs : list ascii) : list ascii :=
  match cs with
  | c :: rest => if is_space c then lstrip rest else cs
  | [] => []
  end.

Definition strip (s : string) : string :=
  string_of_list_ascii
    (rev (lstrip (rev (lstrip (list_ascii_of_string s))))).

Definition postprocess_text (preds labels : list string)
    : list string * list (list string) :=
  (map strip preds, map (fun l => [strip l]) labels).

(** ** The diagnostic accuracy of a training batch (lines 515-519) *)

Definition batch_word_accuracy (predictions labels : tensor2)
    (pad_token_id : Z) : result Q :=
  let label_nonpad_mask := tensor_ne_scalar labels pad_token_id in
  let num_words_in_batch := mask_sum label_nonpad_mask in
  py_truediv
    (count_true (masked_select (tensor_eq predictions labels) label_nonpad_mask))
    num_words_in_batch.

(** ** Arguments of the script that the training loop reads *)

Record Args := {
  max_seq_length : Z;
  num_train_epochs : Z;
  eval_every_steps : Z;
  logging_steps : Z;
  max_train_steps : option Z;
  generation_type : string;
  beam_size : Z;
}.

(** The defaults of [parse_args]. *)
Definition default_args : Args :=
  {| max_seq_length := 128; num_train_epochs := 1; eval_every_steps := 5000;
     logging_steps := 10; max_train_steps := None;
     generation_type := "beam_search"; beam_size := 5 |}.

Definition with_generation_type (g : string) (a : Args) : Args :=
  {| max_seq_length := max_seq_length a; num_train_epochs := num_train_epochs a;
     eval_every_steps := eval_every_steps a; logging_steps := logging_steps a;
     max_train_steps := max_train_steps a;
     generation_type := g; beam_size := beam_size a |}.


(** The training [DataLoader] shuffles: every pass yields
    [len(train_dataloader)] batches, whose content depends on the pass.
    [first_batch] is the batch that [next(iter(train_dataloader))] of
    line 465 draws, in a pass of its own that is then abandoned. *)
Record TrainLoader := {
  steps_per_epoch : nat;
  first_batch : Batch;
  batch_at : nat -> nat -> Batch;
}.

Definition epoch_batches (tl : TrainLoader) (epoch : nat) : list Batch :=
  map (batch_at tl epoch) (seq 0 (steps_per_epoch tl)).

(** Lines 444-448: the step budget and the number of epochs.
    [math.ceil] is applied to the float quotient. *)
Definition resolve_steps (args : Args) (num_update_steps_per_epoch : Z)
    : result (Z * Z) :=
  match max_train_steps args with
  | None =>
      Ok (num_train_epochs args * num_update_steps_per_epoch,
          num_train_epochs args)
  | Some m =>
      match py_truediv_float m num_update_steps_per_epoch with
      | Raise e => Raise e
      | Ok q => Ok (m, Qceiling q)
      end
  end.

(** The budgets for which the float quotient of line 448 is known to
    have the ceiling of the exact quotient: without [--max_train_steps]
    no quotient is taken; with it, a budget below 2^53 over a number of
    batches that fits a machine integer. *)
Definition budget_in_float_range (args : Args)
    (num_update_steps_per_epoch : Z) : Prop :=
  match max_train_steps args with
  | None => True
  | Some m => m < 2 ^ 53 /\ num_update_steps_per_epoch < 2 ^ 63
  end.

(** Line 461: the progress bar takes the length of
    [range(args.max_train_steps)], which a 64-bit Python refuses with
    [OverflowError] from 2^63 on. *)
Definition progress_bar (max_train_steps : Z) : result unit :=
  if 2 ^ 63 <=? max_train_steps then Raise "OverflowError" else Ok tt.

(** Lines 465-469: the two rows of the first batch that are decoded for
    the log.  A row that the batch does not have raises [IndexError]. *)
Definition look_at_row (batch : Batch) (index : nat) : result unit :=
  match input_ids batch !! index with
  | None => Raise "IndexError"
  | Some _ =>
      match labels batch !! index with
      | None => Raise "IndexError"
      | Some _ => Ok tt
      end
  end.

Definition look_at_the_data (batch : Batch) (sampled : nat * nat)
    : result unit :=
  match look_at_row batch (fst sampled) with
  | Raise e => Raise e
  | Ok _ => look_at_row batch (snd sampled)
  end.

Record EvalLocals := {
  n_generated_tokens : Z;
  (** [input_ids, decoded_preds, decoded_labels], unbound before the
      first batch *)
  last_batch : option (tensor2 * list string * list (list string));
}.

Record EvaluationResults := {
  bleu : Q;
  generation_length : Q;
}.

Section Program.
Context {P : Type}.
Variable tokenizer : Tokenizer.
Variable model : Model P.
(** [sacrebleu] scores a whole corpus: predictions against references. *)
Variable sacrebleu : list string -> list (list string) -> result Q.

Definition model_eval : M P unit :=
  fun w => (Ok tt, record CallEval (set_training false w)).

Definition model_train : M P unit :=
  fun w => (Ok tt, record CallTrain (set_training true w)).

Definition model_generate (ids : tensor2) (max_length num_beams : Z)
    : M P tensor2 :=
  fun w =>
    (generate model (params w) (training w) ids max_length num_beams,
     record (CallGenerate (training w) ids max_length num_beams) w).

Definition bleu_add_batch (predictions : list string)
    (references : list (list string)) : M P unit :=
  fun w =>
    (Ok tt,
     record (CallAddBatch predictions references)
       (set_bleu (bleu_predictions w ++ predictions)
                 (bleu_references w ++ references) w)).

(** [bleu.compute()] scores the cache and empties it. *)
Definition bleu_compute : M P Q :=
  fun w =>
    (sacrebleu (bleu_predictions w) (bleu_references w),
     record (CallCompute (bleu_predictions w) (bleu_references w))
       (set_bleu [] [] w)).

Definition model_forward (batch : Batch) : M P (tensor2 * Q) :=
  fun w =>
    (Ok (forward model (params w) (training w) (input_ids batch) (labels batch)),
     w).

Definition optimizer_step (global_step : Z) (batch : Batch) : M P unit :=
  fun w =>
    (Ok tt,
     record (CallOptimizerStep global_step)
       (set_params (update model (params w) (input_ids batch) (labels batch)) w)).

Definition current_lr : M P Q :=
  fun w => (Ok (learning_rate model (params w)), w).

Definition wandb_log (entries : list (string * Q)) (step : Z) : M P unit :=
  fun w => (Ok tt, record (CallWandbLog entries step) w).

Definition save_pretrained : M P unit :=
  fun w => (Ok tt, record CallSavePretrained w).

(** *** [evaluate_model] *)

Definition count_tokens (n : Z) (decoded_preds : list string) : Z :=
  fold_left (fun n pred => n + len (encode tokenizer pred)) decoded_preds n.

Definition evaluate_batch (max_seq_length beam_size : Z)
    (loc : EvalLocals) (batch : Batch) : M P EvalLocals :=
  generated_tokens <-
    model_generate (input_ids batch) max_seq_length beam_size ;;
  let decoded_preds := batch_decode tokenizer generated_tokens in
  let decoded_labels := batch_decode tokenizer (labels batch) in
  let n := count_tokens (n_generated_tokens loc) decoded_preds in
  let post := postprocess_text decoded_preds decoded_labels in
  bleu_add_batch (fst post) (snd post) ;;
  ret {| n_generated_tokens := n;
         last_batch := Some (input_ids batch, fst post, snd post) |}.

Definition evaluate_model (dataloader : DataLoader)
    (max_seq_length beam_size : Z)
    : M P (EvaluationResults * tensor2 * list string * list (list string)) :=
  model_eval ;;
  loc <- for_each (evaluate_batch max_seq_length beam_size)
           (batches_of dataloader)
           {| n_generated_tokens := 0; last_batch := None |} ;;
  model_train ;;
  eval_metric1 <- bleu_compute ;;
  gl <- lift (py_truediv (n_generated_tokens loc) (len (dataset dataloader))) ;;
  match last_batch loc with
  | None => lift (Raise UnboundLocalError)
  | Some (ids, decoded_preds, decoded_labels) =>
      ret ({| bleu := eval_metric1; generation_length := gl |},
           ids, decoded_preds, decoded_labels)
  end.

(** *** The training loop of [main] (lines 444-560) *)

(** The body of [for batch in train_dataloader], up to the test of the
    [break]; it returns the new [global_step]. *)
Definition train_iteration (args : Args) (max_steps : Z)
    (eval_dataloader : DataLoader) (epoch : nat)
    (global_step : Z) (batch : Batch) : M P Z :=
  out <- model_forward batch ;;
  let predictions := fst out in
  let loss := snd out in
  optimizer_step global_step batch ;;
  let global_step := global_step + 1 in
  lr <- current_lr ;;
  wandb_log [("train_loss", loss); ("learning_rate", lr);
             ("epoch", inject_Z (Z.of_nat epoch))] global_step ;;
  r <- lift (py_mod global_step (logging_steps args)) ;;
  (if r =? 0 then
     accuracy <- lift (batch_word_accuracy predictions (labels batch)
                         (pad_token_id tokenizer)) ;;
     wandb_log [("train_batch_word_accuracy", accuracy)] global_step
   else ret tt) ;;
  r <- lift (py_mod global_step (eval_every_steps args)) ;;
  (if (r =? 0) || (global_step =? max_steps) then
     ev <- evaluate_model eval_dataloader (max_seq_length args)
             (beam_size args) ;;
     let eval_results := fst (fst (fst ev)) in
     wandb_log [("eval/bleu", bleu eval_results);
                ("eval/generation_length", generation_length eval_results)]
               global_step ;;
     save_pretrained
   else ret tt) ;;
  ret global_step.

(** [for batch in train_dataloader: ...; if global_step >= max: break] *)
Fixpoint batch_loop (body : Z -> Batch -> M P Z) (max_steps : Z)
    (batches : list Batch) (global_step : Z) : M P Z :=
  match batches with
  | [] => ret global_step
  | batch :: rest =>
      g <- body global_step batch ;;
      if max_steps <=? g then ret g
      else batch_loop body max_steps rest g
  end.

(** [for epoch in range(num_train_epochs): model.train(); ...] *)
Fixpoint epoch_loop (args : Args) (max_steps : Z)
    (train_dataloader : TrainLoader) (eval_dataloader : DataLoader)
    (epochs : list nat) (global_step : Z) : M P Z :=
  match epochs with
  | [] => ret global_step
  | epoch :: rest =>
      model_train ;;
      g <- batch_loop
             (train_iteration args max_steps eval_dataloader epoch)
             max_steps (epoch_batches train_dataloader epoch) global_step ;;
      epoch_loop args max_steps train_dataloader eval_dataloader rest g
  end.

(** [main] from the step arithmetic on (line 444), given the two
    dataloaders; it returns the last [global_step].  [sampled] is what
    [random.sample(range(len(batch)), 2)] of line 467 draws: [batch] is
    the dictionary of the collator, so [len(batch)] is the number of its
    keys, 3, and the draw is two different numbers among 0, 1 and 2,
    which are then used as row indices. *)
Definition main (args : Args) (train_dataloader : TrainLoader)
    (eval_dataloader : DataLoader) (sampled : nat * nat) : M P Z :=
  let num_update_steps_per_epoch := Z.of_nat (steps_per_epoch train_dataloader) in
  se <- lift (resolve_steps args num_update_steps_per_epoch) ;;
  let max_steps := fst se in
  let epochs := snd se in
  lift (progress_bar max_steps) ;;
  (* batch = next(iter(train_dataloader)) *)
  batch <- (if num_update_steps_per_epoch =? 0
            then lift (Raise "StopIteration")
            else ret (first_batch train_dataloader)) ;;
  lift (look_at_the_data batch sampled) ;;
  g <- epoch_loop args max_steps train_dataloader eval_dataloader
         (seq 0 (Z.to_nat epochs)) 0 ;;
  save_pretrained ;;
  ret g.

End Program.

(** The optimizer steps of a call history: the value that [global_step]
    had when each of them ran. *)
Definition optimizer_steps (h : list call) : list Z :=
  flat_map (fun c => match c with CallOptimizerStep g => [g] | _ => [] end) h.

Definition compute_calls (h : list call) : list call :=
  flat_map (fun c => match c with CallCompute _ _ => [c] | _ => [] end) h.

(** [t[i][j]] *)
Definition at2 {A} (t : list (list A)) (i j : nat) : option A :=
  match t !! i with
  | Some row => row !! j
  | None => None
  end.

(** What a tokenizer called with [truncation=True] and [max_length=n]
    returns, for that [n]: one row for every text, none longer than [n],
    none empty (an end-of-sequence token is always there). *)
Definition truncates_to (n : Z) (tok : Tokenizer) : Prop :=
  forall tgt texts,
    texts <> [] ->
    length (tokenize tok tgt texts n) = length texts /\
    forall row, row ∈ tokenize tok tgt texts n ->
                row <> [] /\ len row <= n.

(** ** What a pass of the evaluation loop leaves behind

    Given the token ids [g] that [model.generate] returned for a batch
    [b], the texts handed to the metric and the calls made. *)

Definition batch_predictions (tok : Tokenizer) (g : tensor2) : list string :=
  fst (postprocess_text (batch_decode tok g) []).

Definition batch_references (tok : Tokenizer) (b : Batch)
    : list (list string) :=
  snd (postprocess_text [] (batch_decode tok (labels b))).

Definition loop_calls (tok : Tokenizer) (max_length num_beams : Z)
    (bgs : list (Batch * tensor2)) : list call :=
  flat_map (fun bg =>
    [CallGenerate false (input_ids (fst bg)) max_length num_beams;
     CallAddBatch (batch_predictions tok (snd bg))
                  (batch_references tok (fst bg))]) bgs.

Definition locals_after (tok : Tokenizer) (loc : EvalLocals)
    (bgs : list (Batch * tensor2)) : EvalLocals :=
  fold_left (fun loc bg =>
    {| n_generated_tokens :=
         count_tokens tok (n_generated_tokens loc) (batch_decode tok (snd bg));
       last_batch := Some (input_ids (fst bg),
                           batch_predictions tok (snd bg),
                           batch_references tok (fst bg)) |}) bgs loc.

Definition extend_world {P} (ps : list string) (rs : list (list string))
    (h : list call) (w : world P) : world P :=
  {| params := params w; training := training w;
     bleu_predictions := bleu_predictions w ++ ps;
     bleu_references := bleu_references w ++ rs;
     history := history w ++ h |}.

(** [generate] succeeds on every batch of an evaluation pass, with the
    results [gens]; the model is in inference mode. *)
Definition generations_ok {P} (model : Model P) (max_length num_beams : Z)
    (p : P) (batches : list Batch) (gens : list tensor2) : Prop :=
  Forall2 (fun b g =>
    generate model p false (input_ids b) max_length num_beams = Ok g)
    batches gens.

(** The state in which a completed evaluation leaves the world. *)
Definition world_after_evaluation {P} (tok : Tokenizer)
    (max_length num_beams : Z) (batches : list Batch)
    (gens : list tensor2) (w : world P) : world P :=
  {| params := params w; training := true;
     bleu_predictions := []; bleu_references := [];
     history :=
       history w ++
       CallEval :: loop_calls tok max_length num_beams (zip batches gens) ++
       [CallTrain;
        CallCompute
          (bleu_predictions w ++ flat_map (batch_predictions tok) gens)
          (bleu_references w ++ flat_map (batch_references tok) batches)] |}.

(** The calls of the evaluation loop: generations in the mode [tr] with
    the given bounds, and additions to the metric. *)
Definition loop_call_ok (tr : bool) (max_length num_beams : Z) (c : call)
    : Prop :=
  match c with
  | CallGenerate tr' _ ml nb => tr' = tr /\ ml = max_length /\ nb = num_beams
  | CallAddBatch _ _ => True
  | _ => False
  end.

(** The calls that close an evaluation. *)
Definition closing_call (c : call) : Prop :=
  match c with
  | CallTrain | CallCompute _ _ => True
  | _ => False
  end.

(** A computation that runs no optimizer step, whatever its outcome. *)
Definition silent {P A} (m : M P A) : Prop :=
  forall w, optimizer_steps (history (snd (m w)))
            = optimizer_steps (history w).

(** A computation that can only return [v]. *)
Definition returns_only {P A} (m : M P A) (v : A) : Prop :=
  forall w a, fst (m w) = Ok a -> a = v.

(** The beam widths given to [model.generate], call after call. *)
Definition beams_used (h : list call) : list Z :=
  flat_map (fun c => match c with CallGenerate _ _ _ nb => [nb] | _ => [] end) h.

Definition Zsum (zs : list Z) : Z := fold_right Z.add 0 zs.

(** The lengths that the script counts: every decoded prediction is
    tokenized again and its ids are counted. *)
Definition generation_lengths (tok : Tokenizer) (gens : list tensor2)
    : list Z :=
  map (fun pred => len (encode tok pred)) (flat_map (batch_decode tok) gens).

(** ** Small collaborators to run the definitions on *)

Module Toy.

Definition codes (s : string) : list Z :=
  map (fun c => Z.of_nat (nat_of_ascii c)) (list_ascii_of_string s).

Definition text_of (ids : list Z) : string :=
  string_of_list_ascii
    (map (fun z => ascii_of_nat (Z.to_nat z))
         (List.filter (fun z => negb ((z =? 0) || (z =? 1))) ids)).

(** Truncation to [n] tokens, one of which is the end-of-sequence
    token that is added afterwards: the last tokens go; when all of them
    would have to go, none does. *)
Definition truncate (n : Z) (ids : list Z) : list Z :=
  let remove := len ids + 1 - n in
  if (0 <? remove) && (remove <? len ids)
  then firstn (Z.to_nat (len ids - remove)) ids
  else ids.

(** Character codes, an end-of-sequence token [1], pad token [0];
    padding goes to the longest row. *)
Definition tokenizer : Tokenizer :=
  {| pad_token_id := 0;
     tokenize := fun _ texts n =>
       pad (map (fun s => truncate n (codes s) ++ [1]) texts) 0;
     encode := fun s => codes s ++ [1];
     batch_decode := map text_of |}.

(** A model that repeats its input; its state counts the updates. *)
Definition model : Model nat :=
  {| forward := fun _ _ _ labs => (labs, 0%Q);
     update := fun p _ _ => S p;
     learning_rate := fun _ => 0%Q;
     generate := fun _ _ ids n _ => Ok (map (firstn (Z.to_nat n)) ids) |}.

(** A model whose generation fails, as on an exhausted device. *)
Definition failing_model : Model nat :=
  {| forward := fun _ _ _ labs => (labs, 0%Q);
     update := fun p _ _ => S p;
     learning_rate := fun _ => 0%Q;
     generate := fun _ _ _ _ _ => Raise "RuntimeError" |}.

(** The number of predictions that equal their first reference. *)
Definition exact_matches (ps : list string) (rs : list (list string)) : Z :=
  len (List.filter (fun pr => match snd pr with
                              | r :: _ => String.eqb (fst pr) r
                              | [] => false
                              end) (zip ps rs)).

(** The share of exact matches, in percent; like the metric of the
    [datasets] package it refuses an empty cache. *)
Definition sacrebleu (ps : list string) (rs : list (list string)) : result Q :=
  match ps with
  | [] => Raise "ValueError"
  | _ => Ok (inject_Z (100 * exact_matches ps rs) / inject_Z (len ps))%Q
  end.

Definition world0 : world nat :=
  {| params := O; training := true;
     bleu_predictions := []; bleu_references := []; history := [] |}.

Definition example_of (src tgt : string) : Example :=
  {| ex_input_ids := codes src ++ [1]; ex_labels := codes tgt ++ [1] |}.

(** Three examples whose repeated inputs re-tokenize to 2, 5 and 8
    tokens, in batches of two. *)
Definition eval3 : DataLoader :=
  {| dataset := [example_of "a" "b"; example_of "abcd" "abcd";
                 example_of "abcdefg" "x"];
     batch_size := 2%positive; collate_pad_id := 0 |}.

Definition empty_eval : DataLoader :=
  {| dataset := []; batch_size := 2%positive; collate_pad_id := 0 |}.

(** A batch of three rows. *)
Definition batch3 : Batch :=
  collation_function_for_seq2seq
    [example_of "ab" "cd"; example_of "a" "b"; example_of "abc" "c"] 0.

(** Two batches of three rows in every pass. *)
Definition train2 : TrainLoader :=
  {| steps_per_epoch := 2;
     first_batch := batch3;
     batch_at := fun _ _ => batch3 |}.


(** A draw of [random.sample(range(3), 2)]. *)
Definition sampled : nat * nat := (0%nat, 1%nat).

(** [--max_train_steps 3] with the other arguments at their defaults:
    with two batches per epoch the budget is reached in the middle of
    the second epoch. *)
Definition three_steps : Args :=
  {| max_seq_length := 128; num_train_epochs := 1; eval_every_steps := 5000;
     logging_steps := 10; max_train_steps := Some 3;
     generation_type := "beam_search"; beam_size := 5 |}.


Definition hello : gmap string (list (gmap string string)) :=
  {[ "translation" := [<["en" := "Hello"]> (<["de" := "Hallo"]> ∅)] ]}.

End Toy.

(** ** The splits of the dataset (lines 365-409 of [main])

    A [DatasetDict] keeps its splits in order under their names; it is a
    list of named splits here.  [D] is the type of a raw split and [D']
    that of a tokenized one. *)

Fixpoint dd_get {D} (d : list (string * D)) (k : string) : option D :=
  match d with
  | [] => None
  | (k', v) :: rest => if String.eqb k k' then Some v else dd_get rest k
  end.

Definition dd_getitem {D} (d : list (string * D)) (k : string) : result D :=
  match dd_get d k with
  | Some v => Ok v
  | None => Raise KeyError
  end.

(** [raw_datasets.map(f, ...)]: the splits are processed one after the
    other under their own names; the first failure raises. *)
Fixpoint dd_map {D D'} (f : D -> result D') (d : list (string * D))
    : result (list (string * D')) :=
  match d with
  | [] => Ok []
  | (k, v) :: rest =>
      match f v with
      | Raise e => Raise e
      | Ok v' =>
          match dd_map f rest with
          | Raise e => Raise e
          | Ok rest' => Ok ((k, v') :: rest')
          end
      end
  end.

(** Lines 366-368: without a "validation" split the "train" split is cut
    in two, and the result has these two splits only. *)
Definition split_without_validation {D}
    (train_test_split : D -> result (D * D))
    (raw_datasets : list (string * D)) : result (list (string * D)) :=
  match dd_get raw_datasets "validation" with
  | Some _ => Ok raw_datasets
  | None =>
      match dd_getitem raw_datasets "train" with
      | Raise e => Raise e
      | Ok train =>
          match train_test_split train with
          | Raise e => Raise e
          | Ok s => Ok [("train", fst s); ("test", snd s)]
          end
      end
  end.

(** Lines 366-409: from the loaded splits to [train_dataset] and
    [eval_dataset].  [process] is the tokenization of one split. *)
Definition prepare_datasets {D D'}
    (train_test_split : D -> result (D * D)) (debug : bool)
    (sample_small_debug_dataset : list (string * D) -> list (string * D))
    (process : D -> result D')
    (raw_datasets : list (string * D)) : result (D' * D') :=
  match split_without_validation train_test_split raw_datasets with
  | Raise e => Raise e
  | Ok raw_datasets =>
      let raw_datasets :=
        if debug then sample_small_debug_dataset raw_datasets
        else raw_datasets in
      (* column_names = raw_datasets["train"].column_names *)
      match dd_getitem raw_datasets "train" with
      | Raise e => Raise e
      | Ok _ =>
          match dd_map process raw_datasets with
          | Raise e => Raise e
          | Ok processed =>
              let processed_datasets : gmap string D' := list_to_map processed in
              match getitem processed_datasets "train" with
              | Raise e => Raise e
              | Ok train_dataset =>
                  match select_eval_dataset processed_datasets with
                  | Raise e => Raise e
                  | Ok eval_dataset => Ok (train_dataset, eval_dataset)
                  end
              end
          end
      end
  end.

(** ** The schedule of a training run

    What a call history shows of the schedule: the optimizer steps, the
    keys and the step of every [wandb.log], and the checkpoints. *)

Inductive mark :=
| MarkStep (global_step : Z)
| MarkLog (keys : list string) (step : Z)
| MarkSave.

Definition marks (h : list call) : list mark :=
  flat_map (fun c =>
    match c with
    | CallOptimizerStep g => [MarkStep g]
    | CallWandbLog entries step => [MarkLog (map fst entries) step]
    | CallSavePretrained => [MarkSave]
    | _ => []
    end) h.

(** The test of line 526 at the step [g]. *)
Definition evaluation_due (args : Args) (max_steps g : Z) : bool :=
  (g mod eval_every_steps args =? 0) || (g =? max_steps).

(** The marks of the iteration that starts at [global_step = g] and runs
    to its end. *)
Definition iteration_marks (args : Args) (max_steps g : Z) : list mark :=
  [MarkStep g; MarkLog ["train_loss"; "learning_rate"; "epoch"] (g + 1)] ++
  (if (g + 1) mod logging_steps args =? 0
   then [MarkLog ["train_batch_word_accuracy"] (g + 1)] else []) ++
  (if evaluation_due args max_steps (g + 1)
   then [MarkLog ["eval/bleu"; "eval/generation_length"] (g + 1); MarkSave]
   else []).

(** The steps at which a key was logged. *)
Definition logged_at (key : string) (ms : list mark) : list Z :=
  flat_map (fun m =>
    match m with
    | MarkLog keys step =>
        if existsb (String.eqb key) keys then [step] else []
    | _ => []
    end) ms.

(** Two tensors of predictions that differ only where the label is the
    pad id. *)
Definition agree_off_pad (pad_id : Z) (p p' l : tensor2) : Prop :=
  Forall3 (Forall3 (fun x x' y => y <> pad_id -> x = x')) p p' l.

(** ** [text] of [output_dir/demo.py]

    [decode] is [tokenizer.decode(ids, skip_special_tokens=True)];
    [tokenizer.encode(text)] gives the ids of [tokenizer(text)]. *)

Section Demo.
Context {P : Type}.
Variable tokenizer : Tokenizer.
Variable model : Model P.
Variable decode : list Z -> string.

Definition text (input : string) : M P string :=
  model_eval ;;
  let input := String.append "translate English to German: " input in
  let input_ids := [encode tokenizer input] in
  output_ids <- model_generate model input_ids 128 5 ;;
  match output_ids with
  | [] => lift (Raise "IndexError")
  | first :: _ => ret (decode first)
  end.

End Demo.

(** ** More small inputs *)

Module Toy2.

(** [--logging_steps 0], the rest at the defaults. *)
Definition zero_logging : Args :=
  {| max_seq_length := 128; num_train_epochs := 1; eval_every_steps := 5000;
     logging_steps := 0; max_train_steps := None;
     generation_type := "beam_search"; beam_size := 5 |}.

(** The two batches of [Toy.eval3]. *)
Definition batch1 : Batch :=
  collation_function_for_seq2seq
    [Toy.example_of "a" "b"; Toy.example_of "abcd" "abcd"] 0.

Definition batch2 : Batch :=
  collation_function_for_seq2seq [Toy.example_of "abcdefg" "x"] 0.

(** A model whose generation fails on a batch of one row. *)
Definition picky_model : Model nat :=
  {| forward := fun _ _ _ labs => (labs, 0%Q);
     update := fun p _ _ => S p;
     learning_rate := fun _ => 0%Q;
     generate := fun _ _ ids n _ =>
       match ids with
       | [_] => Raise "RuntimeError"
       | _ => Ok (map (firstn (Z.to_nat n)) ids)
       end |}.


(** Splits that are numbers: a cut keeps two examples for the test part,
    tokenization changes nothing. *)
Definition cut (n : nat) : result (nat * nat) := Ok ((n - 2)%nat, 2%nat).

Definition keep (n : nat) : result nat := Ok n.

Definition train_and_test : list (string * nat) :=
  [("train", 10%nat); ("test", 7%nat)].

Definition train_and_validation : list (string * nat) :=
  [("train", 10%nat); ("validation", 3%nat)].

End Toy2.

(** * Properties *)

(** ** The batch collator *)

Lemma at2_map {A B} (f : A -> B) (t : list (list A)) i j :
  at2 (map (map f) t) i j = f <$> at2 t i j.
Proof.
  unfold at2. change (map (map f) t) with (map f <$> t).
  rewrite list_lookup_fmap. destruct (t !! i) as [row|]; simpl; [|done].
  change (map f row) with (f <$> row). by rewrite list_lookup_fmap.
Qed.

(** C8. In every collated batch the padding mask is defined at exactly
    the positions of [input_ids], and [encoder_padding_mask[i][j]] is true
    if and only if [input_ids[i][j]] equals the pad id. *)
Theorem encoder_padding_mask_iff_pad (batch : list Example) (pad_id : Z)
    (i j : nat) :
  let b := collation_function_for_seq2seq batch pad_id in
  match at2 (input_ids b) i j, at2 (encoder_padding_mask b) i j with
  | Some x, Some m => m = true <-> x = pad_id
  | None, None => True
  | _, _ => False
  end.
Proof.
  simpl. unfold tensor_eq_scalar. rewrite at2_map.
  destruct (at2 _ i j) as [x|]; simpl; [|done].
  apply Z.eqb_eq.
Qed.

(** ** The sequence preprocessor *)

Lemma texts_of_all (f : string -> string) lang
    (translation : list (gmap string string)) (ts : list string) :
  Forall2 (fun ex t => ex !! lang = Some t) translation ts ->
  texts_of f lang translation = Ok (map f ts).
Proof.
  induction 1 as [|ex t rest ts' Hex _ IH]; simpl; [done|].
  unfold getitem. by rewrite Hex, IH.
Qed.

(** C9. The preprocessor prepends the fixed prefix to every source text
    and tokenizes sources and targets in two separate calls, each with
    the truncation bound [max_seq_length].  On the pair
    [{"en": "Hello", "de": "Hallo"}] with bound 10, and a tokenizer that
    truncates to 10, it yields one row of input ids, the tokens of
    "translate English to German: Hello", and one row of labels, the
    tokens of "Hallo"; both rows are non-empty and at most 10 tokens
    long. *)
Theorem preprocess_prefix_and_truncation (tok : Tokenizer)
    (Htok : truncates_to 10 tok) :
  (forall examples translation source_lang target_lang n srcs tgts,
     examples !! "translation" = Some translation ->
     Forall2 (fun ex t => ex !! source_lang = Some t) translation srcs ->
     Forall2 (fun ex t => ex !! target_lang = Some t) translation tgts ->
     preprocess_function examples source_lang target_lang n tok
     = Ok {| mi_input_ids :=
               tokenize tok false (map (String.append task_prefix) srcs) n;
             mi_labels := tokenize tok true tgts n |}) /\
  exists row lrow,
    preprocess_function Toy.hello "en" "de" 10 tok
    = Ok {| mi_input_ids := [row]; mi_labels := [lrow] |} /\
    tokenize tok false ["translate English to German: Hello"] 10 = [row] /\
    tokenize tok true ["Hallo"] 10 = [lrow] /\
    row <> [] /\ len row <= 10 /\ lrow <> [] /\ len lrow <= 10.
Proof.
  split.
  - intros examples translation source_lang target_lang n srcs tgts Hex Hs Ht.
    unfold preprocess_function, getitem at 1. rewrite Hex.
    rewrite (texts_of_all _ _ _ _ Hs), (texts_of_all _ _ _ _ Ht).
    by rewrite map_id.
  - destruct (Htok false ["translate English to German: Hello"])
      as [Hn Hrows]; [done|].
    destruct (Htok true ["Hallo"]) as [Hln Hlrows]; [done|].
    destruct (tokenize tok false ["translate English to German: Hello"] 10)
      as [|row [|]] eqn:Hin; try done.
    destruct (tokenize tok true ["Hallo"] 10) as [|lrow [|]] eqn:Hlab;
      try done.
    exists row, lrow.
    destruct (Hrows row) as [Hr1 Hr2]; [apply list_elem_of_here|].
    destruct (Hlrows lrow) as [Hl1 Hl2]; [apply list_elem_of_here|].
    split; [|done].
    change (preprocess_function Toy.hello "en" "de" 10 tok)
      with (Ok {| mi_input_ids :=
                    tokenize tok false
                      ["translate English to German: Hello"] 10;
                  mi_labels := tokenize tok true ["Hallo"] 10 |}).
    by rewrite Hin, Hlab.
Qed.

(** The toy tokenizer truncates to every bound from 2 on; with a bound
    of 1 it returns the text whole. *)
Lemma toy_tokenizer_truncates (n : Z) : 2 <= n -> truncates_to n Toy.tokenizer.
Proof.
  intros Hn tgt texts _. split.
  { simpl. unfold pad. by rewrite !length_map. }
  intros row Hrow. simpl in Hrow. unfold pad in Hrow.
  apply list_elem_of_In, in_map_iff in Hrow as (s & <- & Hs).
  assert (Hmax : forall l : list (list Z),
             (forall r, In r l -> (length r <= Z.to_nat n)%nat) ->
             (max_len l <= Z.to_nat n)%nat).
  { induction l as [|r l IH]; simpl; intros Hl; [lia|].
    apply Nat.max_lub; [apply Hl; by left | apply IH; intros; apply Hl; by right]. }
  assert (Hlen : forall r,
            In r (map (fun s => Toy.truncate n (Toy.codes s) ++ [1]) texts) ->
            (0 < length r <= Z.to_nat n)%nat).
  { intros r Hr. apply in_map_iff in Hr as (t & <- & _).
    rewrite length_app. simpl. unfold Toy.truncate, len.
    destruct (Z.ltb_spec 0 (Z.of_nat (length (Toy.codes t)) + 1 - n));
      destruct (Z.ltb_spec (Z.of_nat (length (Toy.codes t)) + 1 - n)
                  (Z.of_nat (length (Toy.codes t))));
      simpl; rewrite ?length_firstn; lia. }
  specialize (Hmax _ (fun r Hr => proj2 (Hlen r Hr))).
  specialize (Hlen _ Hs).
  split.
  - intros Heq. apply (f_equal (@length Z)) in Heq.
    rewrite length_app in Heq. simpl in Heq. lia.
  - unfold len. rewrite length_app, repeat_length. lia.
Qed.

Example toy_tokenizer_bound_1 :
  tokenize Toy.tokenizer true ["Hallo"] 1 = [[72; 97; 108; 108; 111; 1]].
Proof. reflexivity. Qed.

Lemma preprocess_prefix_and_truncation_witness :
  exists row lrow,
    preprocess_function Toy.hello "en" "de" 10 Toy.tokenizer
    = Ok {| mi_input_ids := [row]; mi_labels := [lrow] |} /\
    row <> [] /\ len row <= 10 /\ lrow <> [] /\ len lrow <= 10.
Proof.
  destruct (preprocess_prefix_and_truncation Toy.tokenizer
              (toy_tokenizer_truncates 10 ltac:(lia)))
    as [_ (row & lrow & H1 & _ & _ & H4)].
  exists row, lrow. split; [exact H1 | exact H4].
Defined.

(** ** The evaluation split *)

(** C10, as stated, fails: a dataset that has a split spelled "validaion"
    and a "validation" split is evaluated on "validation", not on "test". *)
Lemma eval_split_validation_selected :
  select_eval_dataset
    (<["train" := 0%nat]> (<["validaion" := 1%nat]>
       (<["validation" := 2%nat]> (<["test" := 3%nat]> ∅))))
  = Ok 2%nat.
Proof. reflexivity. Qed.

(** C10, amended. For every processed dataset that has no split spelled
    "validaion", the evaluation set is [processed_datasets["test"]] (a
    [KeyError] when there is no such split), whether or not a
    "validation" split is present. *)
Theorem eval_split_is_test {D} (processed : gmap string D)
    (Hno : processed !! "validaion" = None) :
  select_eval_dataset processed = getitem processed "test" /\
  forall v, select_eval_dataset processed = Ok v ->
            processed !! "test" = Some v.
Proof.
  unfold select_eval_dataset. rewrite Hno. split; [done|].
  unfold getitem. intros v. destruct (processed !! "test"); congruence.
Qed.

Lemma eval_split_is_test_witness :
  select_eval_dataset
    (<["train" := 0%nat]> (<["validation" := 2%nat]> (<["test" := 3%nat]> ∅)))
  = Ok 3%nat.
Proof.
  pose proof (eval_split_is_test
    (<["train" := 0%nat]> (<["validation" := 2%nat]> (<["test" := 3%nat]> ∅)))
    eq_refl) as [H _].
  rewrite H. reflexivity.
Defined.

(** ** The diagnostic accuracy *)

Lemma count_true_from (bs : list bool) (n : Z) :
  fold_left (fun n b => if b : bool then n + 1 else n) bs n
  = n + count_true bs.
Proof.
  unfold count_true. revert n.
  induction bs as [|b bs IH]; intros n; simpl; [lia|].
  rewrite IH, (IH (if b then 0 + 1 else 0)). destruct b; lia.
Qed.

Lemma count_true_cons (b : bool) (bs : list bool) :
  count_true (b :: bs) = (if b then 1 else 0) + count_true bs.
Proof.
  unfold count_true at 1. simpl. rewrite count_true_from. destruct b; lia.
Qed.

Lemma count_true_app (xs ys : list bool) :
  count_true (xs ++ ys) = count_true xs + count_true ys.
Proof.
  induction xs as [|b xs IH]; simpl; [done|].
  rewrite !count_true_cons, IH. lia.
Qed.

Lemma count_true_nonneg (bs : list bool) : 0 <= count_true bs.
Proof.
  induction bs as [|b bs IH]; [done|].
  rewrite count_true_cons. destruct b; lia.
Qed.

Lemma count_true_zero (bs : list bool) :
  count_true bs = 0 <-> Forall (fun b => b = false) bs.
Proof.
  induction bs as [|b bs IH]; [by split|].
  rewrite count_true_cons. pose proof (count_true_nonneg bs).
  split.
  - intros H0. destruct b; [lia|]. constructor; [done|]. apply IH. lia.
  - intros Hall. apply Forall_cons in Hall as [-> Hall].
    apply IH in Hall. lia.
Qed.

Lemma selected_row_le (row mrow : list bool) :
  count_true (map fst (filter (fun p => snd p = true) (zip row mrow)))
  <= count_true mrow.
Proof.
  revert mrow. induction row as [|b row IH]; intros [|m mrow]; simpl;
    try apply count_true_nonneg.
  rewrite filter_cons. simpl. destruct m.
  - rewrite decide_True by done. simpl. rewrite !count_true_cons.
    specialize (IH mrow). destruct b; lia.
  - rewrite decide_False by done. rewrite count_true_cons.
    specialize (IH mrow). lia.
Qed.

Lemma masked_select_le (t m : mask2) :
  count_true (masked_select t m) <= mask_sum m.
Proof.
  unfold masked_select, mask_sum. revert m.
  induction t as [|row t IH]; intros [|mrow m]; simpl;
    try apply count_true_nonneg.
  rewrite !count_true_app. pose proof (selected_row_le row mrow).
  specialize (IH m). lia.
Qed.

Lemma mask_sum_zero (labels : tensor2) (pad_id : Z) :
  mask_sum (tensor_ne_scalar labels pad_id) = 0
  <-> Forall (Forall (fun l => l = pad_id)) labels.
Proof.
  unfold mask_sum. rewrite count_true_zero.
  unfold tensor_ne_scalar.
  induction labels as [|row labels IH]; simpl; [by split|].
  rewrite Forall_app, Forall_cons, IH.
  assert (Hrow : Forall (fun b => b = false)
                   (map (fun v => negb (v =? pad_id)) row)
                 <-> Forall (fun l => l = pad_id) row).
  { rewrite Forall_map. apply Forall_iff. intros l. simpl.
    destruct (Z.eqb_spec l pad_id); simpl; split; congruence. }
  by rewrite Hrow.
Qed.

(** C3, as stated, fails: on a batch whose labels are all the pad id the
    accuracy computation raises a division error. *)
Lemma accuracy_all_pad_raises :
  batch_word_accuracy [[5; 7]; [9; 9]] [[0; 0]; [0; 0]] 0
  = Raise ZeroDivisionError.
Proof. reflexivity. Qed.

(** C3, amended. On every training batch with at least one label
    position that is not the pad id, the accuracy computation does not
    raise: it reports the number of correct non-pad positions divided by
    the number of non-pad positions, a value between 0 and 1.  (With no
    such position the division raises [ZeroDivisionError].) *)
Theorem accuracy_defined_with_nonpad_label (predictions labels : tensor2)
    (pad_id : Z)
    (Hnonpad : Exists (Exists (fun l => l <> pad_id)) labels) :
  let mask := tensor_ne_scalar labels pad_id in
  let correct := count_true (masked_select (tensor_eq predictions labels) mask) in
  batch_word_accuracy predictions labels pad_id
  = Ok (inject_Z correct / inject_Z (mask_sum mask))%Q /\
  0 < mask_sum mask /\
  (0 <= inject_Z correct / inject_Z (mask_sum mask) <= 1)%Q.
Proof.
  intros mask correct.
  assert (Hpos : 0 < mask_sum mask).
  { pose proof (count_true_nonneg (concat mask)) as Hge.
    destruct (Z.eq_dec (mask_sum mask) 0) as [H0|Hne];
      [|unfold mask_sum in *; lia].
    apply mask_sum_zero in H0. exfalso.
    apply Exists_exists in Hnonpad as (row & Hrow & Hex).
    apply Exists_exists in Hex as (l & Hl & Hne).
    rewrite Forall_forall in H0. specialize (H0 row Hrow).
    rewrite Forall_forall in H0. by apply Hne, H0. }
  assert (Hle : correct <= mask_sum mask) by apply masked_select_le.
  assert (Hge : 0 <= correct) by apply count_true_nonneg.
  split; [|split; [exact Hpos|]].
  - unfold batch_word_accuracy, py_truediv. fold mask. fold correct.
    destruct (Z.eqb_spec (mask_sum mask) 0); [lia|done].
  - split.
    + apply Qle_shift_div_l; [unfold Qlt; simpl; lia|].
      rewrite Qmult_0_l. unfold Qle; simpl; lia.
    + apply Qle_shift_div_r; [unfold Qlt; simpl; lia|].
      rewrite Qmult_1_l. unfold Qle; simpl; lia.
Qed.

Lemma accuracy_defined_with_nonpad_label_witness :
  batch_word_accuracy [[5; 7]; [9; 0]] [[5; 8]; [9; 0]] 0
  = Ok (inject_Z 2 / inject_Z 3)%Q.
Proof.
  refine (proj1 (accuracy_defined_with_nonpad_label
                   [[5; 7]; [9; 0]] [[5; 8]; [9; 0]] 0 _)).
  apply Exists_cons_hd, Exists_cons_hd. discriminate.
Defined.

(** ** The evaluation pass *)

Lemma chunks_fuel_nil {A} (fuel n : nat) (xs : list A) :
  chunks_fuel fuel n xs = [] <-> fuel = O \/ xs = [].
Proof.
  destruct fuel as [|fuel], xs as [|x xs]; simpl; split; intros H;
    try done; try (by left); try (by right).
  by destruct H.
Qed.

Lemma batches_of_nil (dl : DataLoader) :
  batches_of dl = [] <-> dataset dl = [].
Proof.
  unfold batches_of, chunks. split.
  - intros H. apply map_eq_nil in H. apply chunks_fuel_nil in H as [H|H]; [|done].
    by apply length_zero_iff_nil.
  - intros ->. done.
Qed.

Lemma extend_world_nil {P} (w : world P) : extend_world [] [] [] w = w.
Proof. destruct w. unfold extend_world. simpl. by rewrite !app_nil_r. Qed.

Lemma extend_world_twice {P} ps1 rs1 h1 ps2 rs2 h2 (w : world P) :
  extend_world ps2 rs2 h2 (extend_world ps1 rs1 h1 w)
  = extend_world (ps1 ++ ps2) (rs1 ++ rs2) (h1 ++ h2) w.
Proof. unfold extend_world. simpl. by rewrite !app_assoc. Qed.

Lemma count_tokens_sum (tok : Tokenizer) (n : Z) (preds : list string) :
  count_tokens tok n preds
  = n + Zsum (map (fun pred => len (encode tok pred)) preds).
Proof.
  unfold count_tokens. revert n.
  induction preds as [|p preds IH]; intros n; simpl; [lia|].
  rewrite IH. lia.
Qed.

Lemma Zsum_app (xs ys : list Z) : Zsum (xs ++ ys) = Zsum xs + Zsum ys.
Proof. induction xs as [|x xs IH]; simpl; lia. Qed.

Lemma locals_after_tokens (tok : Tokenizer) (loc : EvalLocals)
    (bgs : list (Batch * tensor2)) :
  n_generated_tokens (locals_after tok loc bgs)
  = n_generated_tokens loc + Zsum (generation_lengths tok (map snd bgs)).
Proof.
  unfold locals_after, generation_lengths. revert loc.
  induction bgs as [|[b g] bgs IH]; intros loc; simpl; [lia|].
  rewrite IH. simpl. rewrite count_tokens_sum, map_app, Zsum_app. lia.
Qed.

Lemma locals_after_last (tok : Tokenizer) (loc : EvalLocals)
    (bgs : list (Batch * tensor2)) :
  bgs <> [] -> last_batch (locals_after tok loc bgs) <> None.
Proof.
  unfold locals_after. revert loc.
  induction bgs as [|bg bgs IH]; intros loc Hne; [done|].
  simpl. destruct bgs as [|bg' bgs]; [done|]. by apply IH.
Qed.

Lemma for_each_cons {P A S} (body : S -> A -> M P S) x xs s (w : world P) :
  for_each body (x :: xs) s w
  = match body s x w with
    | (Ok s', w') => for_each body xs s' w'
    | (Raise e, w') => (Raise e, w')
    end.
Proof. reflexivity. Qed.

Section Evaluation.
Context {P : Type}.
Variable tok : Tokenizer.
Variable model : Model P.
Variable sacrebleu : list string -> list (list string) -> result Q.
Variables max_length num_beams : Z.

Local Abbreviation eval_loop :=
  (for_each (evaluate_batch tok model max_length num_beams)).
Local Abbreviation evaluate := (evaluate_model tok model sacrebleu).

(** One batch of the loop: a generation, then the texts go to the
    metric; a failed generation leaves only its call behind. *)
Lemma evaluate_batch_run (loc : EvalLocals) (b : Batch) (w : world P) :
  evaluate_batch tok model max_length num_beams loc b w
  = match generate model (params w) (training w) (input_ids b)
            max_length num_beams with
    | Ok g =>
        (Ok (locals_after tok loc [(b, g)]),
         extend_world (batch_predictions tok g) (batch_references tok b)
           [CallGenerate (training w) (input_ids b) max_length num_beams;
            CallAddBatch (batch_predictions tok g) (batch_references tok b)]
           w)
    | Raise e =>
        (Raise e,
         record (CallGenerate (training w) (input_ids b) max_length num_beams) w)
    end.
Proof.
  unfold evaluate_batch, bind, model_generate, bleu_add_batch, ret.
  destruct (generate model _ _ _ _ _) as [g|e]; [|done].
  unfold extend_world, record, set_bleu. simpl. by rewrite <- app_assoc.
Qed.

(** The loop never touches the mode or the parameters of the model. *)
Lemma eval_loop_mode (batches : list Batch) (loc : EvalLocals) (w : world P) :
  training (snd (eval_loop batches loc w)) = training w /\
  params (snd (eval_loop batches loc w)) = params w.
Proof.
  revert loc w. induction batches as [|b batches IH]; intros loc w; [done|].
  rewrite for_each_cons, evaluate_batch_run.
  destruct (generate model _ _ _ _ _) as [g|e]; [|done].
  match goal with |- context [eval_loop batches ?l ?w'] =>
    destruct (IH l w') as [-> ->] end.
  done.
Qed.

(** When every generation succeeds, the loop runs to its end. *)
Lemma eval_loop_ok (batches : list Batch) (gens : list tensor2)
    (loc : EvalLocals) (w : world P) :
  training w = false ->
  generations_ok model max_length num_beams (params w) batches gens ->
  eval_loop batches loc w
  = (Ok (locals_after tok loc (zip batches gens)),
     extend_world (flat_map (batch_predictions tok) gens)
                  (flat_map (batch_references tok) batches)
                  (loop_calls tok max_length num_beams (zip batches gens)) w).
Proof.
  intros Hmode Hgen. revert gens loc w Hmode Hgen.
  induction batches as [|b batches IH]; intros gens loc w Hmode Hgen;
    inversion Hgen as [|? g ? gens' Hg Hrest]; subst.
  - simpl. unfold ret. by rewrite extend_world_nil.
  - rewrite for_each_cons, evaluate_batch_run, Hmode, Hg.
    rewrite (IH gens'); [|exact Hmode|exact Hrest].
    by rewrite extend_world_twice.
Qed.

(** [evaluate_model], one collaborator call after the other. *)
Lemma evaluate_model_unfold (dl : DataLoader) (w : world P) :
  evaluate dl max_length num_beams w
  = match eval_loop (batches_of dl)
            {| n_generated_tokens := 0; last_batch := None |}
            (record CallEval (set_training false w)) with
    | (Raise e, w1) => (Raise e, w1)
    | (Ok loc, w1) =>
        let w3 :=
          record (CallCompute (bleu_predictions w1) (bleu_references w1))
            (set_bleu [] [] (record CallTrain (set_training true w1))) in
        match sacrebleu (bleu_predictions w1) (bleu_references w1) with
        | Raise e => (Raise e, w3)
        | Ok score =>
            match py_truediv (n_generated_tokens loc) (len (dataset dl)) with
            | Raise e => (Raise e, w3)
            | Ok gl =>
                match last_batch loc with
                | None => (Raise UnboundLocalError, w3)
                | Some (ids, decoded_preds, decoded_labels) =>
                    (Ok ({| bleu := score; generation_length := gl |},
                         ids, decoded_preds, decoded_labels), w3)
                end
            end
        end
    end.
Proof.
  unfold evaluate_model, bind, model_eval, model_train, bleu_compute, lift.
  destruct (eval_loop _ _ _) as [[loc|e] w1]; [|done]. simpl.
  destruct (sacrebleu _ _) as [score|e]; [|done].
  destruct (py_truediv _ _) as [gl|e]; [|done].
  destruct (last_batch loc) as [[[ids dp] dl']|]; done.
Qed.

(** On a non-empty evaluation set, when every generation and the
    scoring succeed, [evaluate_model] returns. *)
Lemma evaluate_model_ok (dl : DataLoader) (gens : list tensor2)
    (score : Q) (w : world P) :
  dataset dl <> [] ->
  generations_ok model max_length num_beams (params w) (batches_of dl) gens ->
  sacrebleu (bleu_predictions w ++ flat_map (batch_predictions tok) gens)
            (bleu_references w ++ flat_map (batch_references tok) (batches_of dl))
  = Ok score ->
  exists ids decoded_preds decoded_labels,
    evaluate dl max_length num_beams w
    = (Ok ({| bleu := score;
              generation_length :=
                (inject_Z (Zsum (generation_lengths tok gens))
                 / inject_Z (len (dataset dl)))%Q |},
           ids, decoded_preds, decoded_labels),
       world_after_evaluation tok max_length num_beams (batches_of dl) gens w).
Proof.
  intros Hne Hgen Hscore.
  rewrite evaluate_model_unfold.
  rewrite (eval_loop_ok _ gens); [|done|exact Hgen].
  cbn [extend_world record set_training set_bleu bleu_predictions
       bleu_references history params training].
  rewrite Hscore.
  rewrite locals_after_tokens. cbn [n_generated_tokens].
  assert (Hlen : length (batches_of dl) = length gens)
    by (eapply Forall2_length; exact Hgen).
  rewrite snd_zip by lia. rewrite Z.add_0_l.
  unfold py_truediv.
  assert (Hds : len (dataset dl) <> 0).
  { unfold len. destruct (dataset dl); [done|]. simpl. lia. }
  destruct (Z.eqb_spec (len (dataset dl)) 0) as [|_]; [done|].
  assert (Hb : batches_of dl <> []) by (by rewrite batches_of_nil).
  pose proof (locals_after_last tok
    {| n_generated_tokens := 0; last_batch := None |}
    (zip (batches_of dl) gens)) as Hlast.
  destruct (last_batch _) as [[[ids dp] dl']|].
  - exists ids, dp, dl'. f_equal.
    unfold world_after_evaluation, record, set_bleu, set_training,
      extend_world. simpl. f_equal. by rewrite <- !app_assoc.
  - exfalso. apply Hlast; [|done].
    destruct (batches_of dl), gens; simpl in *; congruence.
Qed.

(** Whatever happens, the loop only generates, in the mode it was
    entered in and with the bounds it was given, and feeds the metric. *)
Lemma eval_loop_calls (batches : list Batch) (loc : EvalLocals)
    (w : world P) :
  exists evs,
    history (snd (eval_loop batches loc w)) = history w ++ evs /\
    Forall (loop_call_ok (training w) max_length num_beams) evs.
Proof.
  revert loc w. induction batches as [|b batches IH]; intros loc w.
  - exists []. simpl. by rewrite app_nil_r.
  - rewrite for_each_cons, evaluate_batch_run.
    destruct (generate model _ _ _ _ _) as [g|e].
    + match goal with |- context [eval_loop batches ?l ?w'] =>
        destruct (IH l w') as (evs & Hh & Hall); rewrite Hh end.
      eexists. simpl. rewrite <- app_assoc. split; [reflexivity|].
      repeat (constructor; [by simpl|]). exact Hall.
    + eexists. simpl. split; [reflexivity|].
      by repeat constructor.
Qed.

Lemma evaluate_model_calls (dl : DataLoader) (w : world P) :
  exists evs tail,
    history (snd (evaluate dl max_length num_beams w))
    = history w ++ CallEval :: evs ++ tail /\
    Forall (loop_call_ok false max_length num_beams) evs /\
    Forall closing_call tail.
Proof.
  rewrite evaluate_model_unfold.
  destruct (eval_loop_calls (batches_of dl)
              {| n_generated_tokens := 0; last_batch := None |}
              (record CallEval (set_training false w)))
    as (evs & Hh & Hall).
  destruct (eval_loop _ _ _) as [[loc|e] w1]; simpl in Hh.
  - exists evs, [CallTrain;
                 CallCompute (bleu_predictions w1) (bleu_references w1)].
    split; [|split; [exact Hall | by repeat constructor]].
    destruct (sacrebleu _ _) as [score|e];
      [destruct (py_truediv _ _) as [gl|e];
       [destruct (last_batch loc) as [[[ids dp] dl']|]|]|];
      simpl; rewrite Hh, <- !app_assoc; reflexivity.
  - exists evs, []. rewrite app_nil_r. simpl.
    split; [by rewrite Hh, <- app_assoc | by split].
Qed.

Lemma compute_calls_app (h1 h2 : list call) :
  compute_calls (h1 ++ h2) = compute_calls h1 ++ compute_calls h2.
Proof. apply flat_map_app. Qed.

Lemma compute_calls_loop (bgs : list (Batch * tensor2)) :
  compute_calls (loop_calls tok max_length num_beams bgs) = [].
Proof. induction bgs as [|bg bgs IH]; [done|]. exact IH. Qed.

(** C2, amended. On an empty evaluation set [evaluate_model] never
    returns a result.  The loop body does not run; the model goes to
    inference mode and back, then [bleu.compute()] is called on the cache
    as it stands, and when the metric refuses the cache the call fails
    with the error of the metric; only when the metric returns a score
    is the division by the number of examples reached, and it raises
    [ZeroDivisionError]. *)
Theorem empty_evaluation_set_fails (dl : DataLoader) (w : world P)
    (Hempty : dataset dl = []) :
  let out := evaluate dl max_length num_beams w in
  fst out
  = match sacrebleu (bleu_predictions w) (bleu_references w) with
    | Raise e => Raise e
    | Ok _ => Raise ZeroDivisionError
    end /\
  history (snd out)
  = history w ++ [CallEval; CallTrain;
                  CallCompute (bleu_predictions w) (bleu_references w)].
Proof.
  intros out. subst out. rewrite evaluate_model_unfold.
  apply batches_of_nil in Hempty as Hb. rewrite Hb. simpl.
  destruct (sacrebleu _ _) as [score|e].
  - rewrite Hempty. simpl. by rewrite <- !app_assoc.
  - simpl. by rewrite <- !app_assoc.
Qed.

(** C4, amended. The model is put in inference mode before the loop and
    stays in it for every generation.  When the loop over the batches
    completes, the model is back in training mode when [evaluate_model]
    ends, also when the scoring or the division then fails; when a
    generation fails inside the loop, the error leaves [evaluate_model]
    with the model still in inference mode. *)
Theorem training_mode_restored_after_loop (dl : DataLoader) (w : world P) :
  let run := eval_loop (batches_of dl)
               {| n_generated_tokens := 0; last_batch := None |}
               (record CallEval (set_training false w)) in
  let out := evaluate dl max_length num_beams w in
  (forall tr ids ml nb,
     CallGenerate tr ids ml nb ∈ drop (length (history w)) (history (snd out)) ->
     tr = false) /\
  match fst run with
  | Ok _ => training (snd out) = true
  | Raise e => out = (Raise e, snd run) /\ training (snd out) = false
  end.
Proof.
  intros run out. split.
  - intros tr ids ml nb Hin. subst out.
    destruct (evaluate_model_calls dl w) as (evs & tail & Hh & Hevs & Htail).
    rewrite Hh, drop_app_length in Hin.
    apply elem_of_cons in Hin as [Hin|Hin]; [done|].
    apply elem_of_app in Hin as [Hin|Hin].
    + rewrite Forall_forall in Hevs. by destruct (Hevs _ Hin).
    + rewrite Forall_forall in Htail. by destruct (Htail _ Hin).
  - subst out. rewrite evaluate_model_unfold. fold run.
    pose proof (eval_loop_mode (batches_of dl)
                  {| n_generated_tokens := 0; last_batch := None |}
                  (record CallEval (set_training false w))) as [Hmode _].
    fold run in Hmode.
    destruct run as [[loc|e] w1]; simpl in *; [|done].
    destruct (sacrebleu _ _) as [score|e];
      [destruct (py_truediv _ _) as [gl|e];
       [destruct (last_batch loc) as [[[ids dp] dl']|]|]|]; done.
Qed.

(** C5. When an evaluation starts from an empty metric cache and every
    generation and the scoring succeed, the predictions and references
    of all batches are added to the cache batch by batch, the score is
    computed by one call made after the last addition, over the
    predictions and references of all batches together, and that score
    is the BLEU of the result. *)
Theorem bleu_computed_once_over_corpus (dl : DataLoader)
    (gens : list tensor2) (score : Q) (w : world P)
    (Hps : bleu_predictions w = []) (Hrs : bleu_references w = [])
    (Hne : dataset dl <> [])
    (Hgen : generations_ok model max_length num_beams (params w)
              (batches_of dl) gens)
    (Hscore : sacrebleu (flat_map (batch_predictions tok) gens)
                (flat_map (batch_references tok) (batches_of dl))
              = Ok score) :
  let corpus :=
    CallCompute (flat_map (batch_predictions tok) gens)
                (flat_map (batch_references tok) (batches_of dl)) in
  exists r w',
    evaluate dl max_length num_beams w = (Ok r, w') /\
    bleu (fst (fst (fst r))) = score /\
    history w'
    = history w ++
      CallEval :: loop_calls tok max_length num_beams (zip (batches_of dl) gens)
      ++ [CallTrain; corpus] /\
    compute_calls (history w') = compute_calls (history w) ++ [corpus] /\
    bleu_predictions w' = [] /\ bleu_references w' = [].
Proof.
  intros corpus.
  destruct (evaluate_model_ok dl gens score w Hne Hgen) as (ids & dp & dl' & Hrun).
  { by rewrite Hps, Hrs. }
  eexists _, _. split; [exact Hrun|].
  unfold world_after_evaluation. simpl. rewrite Hps, Hrs. simpl.
  repeat split; try done.
  rewrite compute_calls_app. f_equal.
  change (CallEval :: ?l) with ([CallEval] ++ l).
  by rewrite !compute_calls_app, compute_calls_loop.
Qed.

(** C7. When every generation and the scoring succeed on a non-empty
    evaluation set, the generation length of the result is the sum of
    the token counts of all predictions of all batches divided by the
    number of examples of the dataset; with token counts 2, 5 and 8 on
    three examples it is 5. *)
Theorem mean_generation_length_per_example (dl : DataLoader)
    (gens : list tensor2) (score : Q) (w : world P)
    (Hne : dataset dl <> [])
    (Hgen : generations_ok model max_length num_beams (params w)
              (batches_of dl) gens)
    (Hscore : sacrebleu
                (bleu_predictions w ++ flat_map (batch_predictions tok) gens)
                (bleu_references w ++
                 flat_map (batch_references tok) (batches_of dl))
              = Ok score) :
  exists r w',
    evaluate dl max_length num_beams w = (Ok r, w') /\
    generation_length (fst (fst (fst r)))
    = (inject_Z (Zsum (generation_lengths tok gens))
       / inject_Z (len (dataset dl)))%Q /\
    (generation_lengths tok gens = [2; 5; 8] -> len (dataset dl) = 3 ->
     (generation_length (fst (fst (fst r))) == 5)%Q).
Proof.
  destruct (evaluate_model_ok dl gens score w Hne Hgen Hscore)
    as (ids & dp & dl' & Hrun).
  eexists _, _. split; [exact Hrun|]. simpl. split; [done|].
  intros -> ->. reflexivity.
Qed.

End Evaluation.

(** C2, as stated, fails: with a metric that refuses an empty cache, as
    the one of the [datasets] package does with a [ValueError], the error
    raised on an empty evaluation set is that error, not an error of a
    class of its own. *)
Lemma empty_evaluation_error_class :
  fst (evaluate_model Toy.tokenizer Toy.model Toy.sacrebleu
         Toy.empty_eval 128 5 Toy.world0)
  = Raise "ValueError" /\
  fst (evaluate_model Toy.tokenizer Toy.model Toy.sacrebleu
         Toy.empty_eval 128 5 Toy.world0)
  <> Raise "EmptyEvaluationSetError".
Proof. split; [reflexivity | discriminate]. Qed.

Lemma empty_evaluation_set_fails_witness :
  let out := evaluate_model Toy.tokenizer Toy.model Toy.sacrebleu
               Toy.empty_eval 128 5 Toy.world0 in
  fst out
  = match Toy.sacrebleu (bleu_predictions Toy.world0)
            (bleu_references Toy.world0) with
    | Raise e => Raise e
    | Ok _ => Raise ZeroDivisionError
    end /\
  history (snd out)
  = history Toy.world0
    ++ [CallEval; CallTrain;
        CallCompute (bleu_predictions Toy.world0)
          (bleu_references Toy.world0)].
Proof.
  exact (empty_evaluation_set_fails Toy.tokenizer Toy.model Toy.sacrebleu
           128 5 Toy.empty_eval Toy.world0 eq_refl).
Defined.

(** The division is reached when the metric has something to score: an
    earlier evaluation that failed can have left its texts in the cache
    of the metric. *)
Example empty_evaluation_with_cache_left :
  fst (evaluate_model Toy.tokenizer Toy.model Toy.sacrebleu Toy.empty_eval
         128 5 (set_bleu ["a"] [["a"]] Toy.world0))
  = Raise ZeroDivisionError.
Proof. reflexivity. Qed.

(** C4, as stated, fails: a generation that raises inside the loop ends
    the evaluation with the model left in inference mode. *)
Lemma evaluation_error_leaves_inference_mode :
  let out := evaluate_model Toy.tokenizer Toy.failing_model Toy.sacrebleu
               Toy.eval3 128 5 Toy.world0 in
  training Toy.world0 = true /\
  fst out = Raise "RuntimeError" /\
  training (snd out) = false.
Proof. repeat split. Qed.

Lemma toy_generations_ok :
  generations_ok Toy.model 128 5 (params Toy.world0) (batches_of Toy.eval3)
    (map input_ids (batches_of Toy.eval3)).
Proof. repeat constructor. Qed.

Lemma bleu_computed_once_over_corpus_witness :
  exists r w',
    evaluate_model Toy.tokenizer Toy.model Toy.sacrebleu Toy.eval3 128 5
      Toy.world0 = (Ok r, w') /\
    bleu (fst (fst (fst r))) = (100 # 3)%Q /\
    compute_calls (history w')
    = [CallCompute ["a"; "abcd"; "abcdefg"] [["b"]; ["abcd"]; ["x"]]].
Proof.
  destruct (bleu_computed_once_over_corpus Toy.tokenizer Toy.model
              Toy.sacrebleu 128 5 Toy.eval3
              (map input_ids (batches_of Toy.eval3)) (100 # 3)%Q Toy.world0
              eq_refl eq_refl ltac:(discriminate) toy_generations_ok eq_refl)
    as (r & w' & Hrun & Hbleu & _ & Hcalls & _).
  exists r, w'. split; [exact Hrun|]. split; [exact Hbleu | exact Hcalls].
Defined.

Lemma mean_generation_length_per_example_witness :
  exists r w',
    evaluate_model Toy.tokenizer Toy.model Toy.sacrebleu Toy.eval3 128 5
      Toy.world0 = (Ok r, w') /\
    (generation_length (fst (fst (fst r))) == 5)%Q.
Proof.
  destruct (mean_generation_length_per_example Toy.tokenizer Toy.model
              Toy.sacrebleu 128 5 Toy.eval3
              (map input_ids (batches_of Toy.eval3)) (100 # 3)%Q Toy.world0
              ltac:(discriminate) toy_generations_ok eq_refl)
    as (r & w' & Hrun & _ & Hmean).
  exists r, w'. split; [exact Hrun|]. by apply Hmean.
Defined.

(** ** The training loop *)

Lemma optimizer_steps_app (h1 h2 : list call) :
  optimizer_steps (h1 ++ h2) = optimizer_steps h1 ++ optimizer_steps h2.
Proof. apply flat_map_app. Qed.

Lemma optimizer_steps_record {P} (c : call) (w : world P) :
  optimizer_steps (history (record c w))
  = optimizer_steps (history w) ++ optimizer_steps [c].
Proof. apply optimizer_steps_app. Qed.

Lemma optimizer_steps_none (Q : call -> Prop) (evs : list call) :
  (forall g, ~ Q (CallOptimizerStep g)) ->
  Forall Q evs -> optimizer_steps evs = [].
Proof.
  intros HQ. induction 1 as [|c evs Hc _ IH]; [done|].
  destruct c; simpl; try exact IH. by destruct (HQ _ Hc).
Qed.

Section Silent.
Context {P : Type}.

Lemma silent_ret {A} (a : A) : silent (ret a : M P A).
Proof. by intros w. Qed.

Lemma silent_lift {A} (r : result A) : silent (lift r : M P A).
Proof. by intros w. Qed.

Lemma silent_bind {A B} (m : M P A) (k : A -> M P B) :
  silent m -> (forall a, silent (k a)) -> silent (bind m k).
Proof.
  intros Hm Hk w. unfold bind. specialize (Hm w).
  destruct (m w) as [[a|e] w1]; simpl in *; [|done].
  by rewrite Hk.
Qed.

Lemma silent_record {A} (a : A) (c : call) :
  optimizer_steps [c] = [] ->
  silent (fun w : world P => (Ok a, record c w)).
Proof.
  intros Hc w. simpl. by rewrite optimizer_steps_app, Hc, app_nil_r.
Qed.

Lemma returns_only_bind {A B} (m : M P A) (k : A -> M P B) (v : B) :
  (forall a, returns_only (k a) v) -> returns_only (bind m k) v.
Proof.
  intros Hk w b. unfold bind.
  destruct (m w) as [[a|e] w1]; simpl; [apply Hk | done].
Qed.

Lemma returns_only_ret {A} (v : A) : returns_only (ret v : M P A) v.
Proof. intros w a. simpl. congruence. Qed.

End Silent.

(** *** The ceiling of the float quotient *)

(** The exponent that [quotient_exponent] finds is not above the
    logarithm of the quotient. *)
Lemma quotient_exponent_low (a b : Z) :
  0 < a -> 0 < b ->
  let k := quotient_exponent a b in
  b * 2 ^ Z.max 0 k <= a * 2 ^ Z.max 0 (- k) /\
  Z.log2 a - Z.log2 b - 1 <= k <= Z.log2 a - Z.log2 b.
Proof.
  intros Ha Hb k. subst k. unfold quotient_exponent.
  set (d := Z.log2 a - Z.log2 b).
  destruct (Z.leb_spec (b * 2 ^ Z.max 0 d) (a * 2 ^ Z.max 0 (- d))) as [Hle|Hgt].
  - split; [exact Hle | lia].
  - split; [|lia].
    destruct (Z.log2_spec a Ha) as [Ha1 Ha2].
    destruct (Z.log2_spec b Hb) as [Hb1 Hb2].
    pose proof (Z.log2_nonneg a) as Hla. pose proof (Z.log2_nonneg b) as Hlb.
    destruct (Z.le_gt_cases 1 d) as [Hd|Hd].
    + replace (Z.max 0 (d - 1)) with (d - 1) by lia.
      replace (Z.max 0 (- (d - 1))) with 0 by lia.
      rewrite Z.pow_0_r, Z.mul_1_r.
      assert (Hp : 2 ^ Z.log2 a = 2 ^ Z.succ (Z.log2 b) * 2 ^ (d - 1)).
      { rewrite <- Z.pow_add_r by lia. f_equal. lia. }
      assert (0 < 2 ^ (d - 1)) by (apply Z.pow_pos_nonneg; lia).
      nia.
    + replace (Z.max 0 (d - 1)) with 0 by lia.
      replace (Z.max 0 (- (d - 1))) with (1 - d) by lia.
      rewrite Z.pow_0_r, Z.mul_1_r.
      assert (Hp : 2 ^ Z.succ (Z.log2 b) = 2 ^ Z.log2 a * 2 ^ (1 - d)).
      { rewrite <- Z.pow_add_r by lia. f_equal. lia. }
      assert (0 < 2 ^ (1 - d)) by (apply Z.pow_pos_nonneg; lia).
      nia.
Qed.

(** Rounding keeps the ceiling: with a scale [p] that is more than half
    the divisor, the rounded [a * p / b] lies in the same window of
    length [p] below [N * p] as the exact one. *)
Lemma round_half_even_window (a b p N : Z) :
  0 < b -> 0 < p -> b < 2 * p ->
  (N - 1) * b < a <= N * b ->
  (N - 1) * p < round_half_even (a * p) b <= N * p.
Proof.
  intros Hb Hp Hbp [Hlow Hup]. unfold round_half_even.
  pose proof (Z.div_mod (a * p) b ltac:(lia)) as Hdm.
  pose proof (Z.mod_pos_bound (a * p) b Hb) as Hr.
  set (q := a * p / b) in *. set (r := (a * p) mod b) in *.
  clearbody q r.
  assert (Hq1 : (N - 1) * p <= q) by nia.
  assert (Hq2 : q <= N * p) by nia.
  assert (Hq3 : 0 < r -> q + 1 <= N * p) by (intros; nia).
  assert (Hq4 : q = (N - 1) * p -> b < 2 * r) by (intros; nia).
  destruct (Z.ltb_spec (2 * r) b) as [H1|H1].
  - split; [|lia]. destruct (Z.eq_dec q ((N - 1) * p)) as [Heq|]; [|lia].
    specialize (Hq4 Heq). lia.
  - destruct (Z.ltb_spec b (2 * r)) as [H2|H2].
    + split; [lia | apply Hq3; lia].
    + destruct (Z.even q).
      * split; [|lia]. destruct (Z.eq_dec q ((N - 1) * p)) as [Heq|]; [|lia].
        specialize (Hq4 Heq). lia.
      * split; [lia | apply Hq3; lia].
Qed.

(** The ceiling of a quotient of integers. *)
Lemma Qceiling_window (m p N : Z) :
  0 < p -> (N - 1) * p < m <= N * p ->
  Qceiling (inject_Z m / inject_Z p) = N.
Proof.
  intros Hp [Hlow Hup].
  pose proof (Qle_ceiling (inject_Z m / inject_Z p)) as Hc1.
  pose proof (Qceiling_lt (inject_Z m / inject_Z p)) as Hc2.
  set (c := Qceiling (inject_Z m / inject_Z p)) in *. clearbody c.
  destruct p as [|p|p]; try lia.
  unfold Qle, Qlt, Qdiv, Qmult, Qinv, inject_Z in Hc1, Hc2.
  simpl in Hc1, Hc2. nia.
Qed.

(** Below 2^53 the float quotient has the ceiling of the exact quotient. *)
Lemma py_truediv_float_ceiling (a b : Z) :
  0 < a < 2 ^ 53 -> 0 < b < 2 ^ 63 ->
  exists v,
    py_truediv_float a b = Ok v /\
    (Qceiling v - 1) * b < a <= Qceiling v * b.
Proof.
  intros [Ha Ha53] [Hb Hb63].
  unfold py_truediv_float, binary64_value.
  destruct (Z.eqb_spec b 0) as [|_]; [lia|].
  destruct (Z.eqb_spec a 0) as [|_]; [lia|].
  rewrite (Z.abs_eq a), (Z.abs_eq b) by lia.
  rewrite Z.sgn_pos, Z.sgn_pos by lia. rewrite Z.eqb_refl.
  unfold nearest_binary64. cbn [fst snd].
  destruct (quotient_exponent_low a b Ha Hb) as [Hk [Hk1 Hk2]].
  set (k := quotient_exponent a b) in *. clearbody k.
  assert (Hla : Z.log2 a < 53) by (apply Z.log2_lt_pow2; lia).
  assert (Hlb : Z.log2 b < 63) by (apply Z.log2_lt_pow2; lia).
  pose proof (Z.log2_nonneg a). pose proof (Z.log2_nonneg b).
  replace (Z.max (k - 52) (-1074)) with (k - 52) by lia.
  replace (Z.max 0 (k - 52)) with 0 by lia.
  replace (Z.max 0 (- (k - 52))) with (52 - k) by lia.
  rewrite Z.pow_0_r, !Z.mul_1_r.
  assert (Hp : 0 < 2 ^ (52 - k)) by (apply Z.pow_pos_nonneg; lia).
  assert (Hbp : b < 2 * 2 ^ (52 - k)).
  { destruct (Z.le_gt_cases 0 k) as [Hk0|Hk0].
    - replace (Z.max 0 k) with k in Hk by lia.
      replace (Z.max 0 (- k)) with 0 in Hk by lia.
      rewrite Z.pow_0_r, Z.mul_1_r in Hk.
      assert (Hpow : 2 ^ 53 = 2 * 2 ^ (52 - k) * 2 ^ k).
      { rewrite <- (Z.pow_1_r 2) at 2.
        rewrite <- !Z.pow_add_r by lia. f_equal. lia. }
      assert (0 < 2 ^ k) by (apply Z.pow_pos_nonneg; lia).
      nia.
    - replace (Z.max 0 k) with 0 in Hk by lia.
      replace (Z.max 0 (- k)) with (- k) in Hk by lia.
      rewrite Z.pow_0_r, Z.mul_1_r in Hk.
      assert (Hpow : 2 * 2 ^ (52 - k) = 2 ^ 53 * 2 ^ (- k)).
      { rewrite <- (Z.pow_1_r 2) at 1.
        rewrite <- !Z.pow_add_r by lia. f_equal. lia. }
      assert (0 < 2 ^ (- k)) by (apply Z.pow_pos_nonneg; lia).
      nia. }
  set (p := 2 ^ (52 - k)) in *. clearbody p.
  set (N := (a + b - 1) / b).
  assert (HN : (N - 1) * b < a <= N * b).
  { pose proof (Z.div_mod (a + b - 1) b ltac:(lia)) as Hdm.
    pose proof (Z.mod_pos_bound (a + b - 1) b Hb) as Hr.
    fold N in Hdm. nia. }
  clearbody N.
  pose proof (round_half_even_window a b p N Hb Hp Hbp HN) as Hm.
  set (m := round_half_even (a * p) b) in *. clearbody m.
  assert (HNa : N <= a) by nia.
  destruct (Z.leb_spec (2 ^ 1024 * p) m) as [Hov|_].
  { exfalso. assert (2 ^ 53 < 2 ^ 1024) by (apply Z.pow_lt_mono_r; lia). nia. }
  eexists. split; [reflexivity|].
  rewrite (Qceiling_window m p N Hp Hm). exact HN.
Qed.

Lemma round_half_even_nonneg (num den : Z) :
  0 <= num -> 0 < den -> 0 <= round_half_even num den.
Proof.
  intros Hn Hd. unfold round_half_even.
  pose proof (Z.div_pos num den Hn Hd).
  repeat match goal with |- context [if ?c then _ else _] => destruct c end;
    lia.
Qed.

(** A quotient that is not positive has no positive ceiling. *)
Lemma py_truediv_float_nonpos (a b : Z) (v : Q) :
  a <= 0 -> 0 < b ->
  py_truediv_float a b = Ok v -> Qceiling v <= 0.
Proof.
  intros Ha Hb. unfold py_truediv_float.
  destruct (Z.eqb_spec b 0) as [|_]; [lia|].
  destruct (Z.eqb_spec a 0) as [->|Hne]; [by intros [= <-]|].
  destruct (_ <=? _); [done|]. intros [= <-].
  rewrite Z.sgn_neg, Z.sgn_pos by lia.
  change (-1 =? 1) with false. cbv iota.
  change 0 with (Qceiling 0). apply Qceiling_resp_le.
  unfold binary64_value, nearest_binary64. cbn [fst snd].
  set (e := Z.max (quotient_exponent (Z.abs a) (Z.abs b) - 52) (-1074)).
  assert (Hx : 0 <= round_half_even (Z.abs a * 2 ^ Z.max 0 (- e))
                      (Z.abs b * 2 ^ Z.max 0 e) * 2 ^ Z.max 0 e).
  { assert (0 < 2 ^ Z.max 0 e) by (apply Z.pow_pos_nonneg; lia).
    assert (0 < 2 ^ Z.max 0 (- e)) by (apply Z.pow_pos_nonneg; lia).
    apply Z.mul_nonneg_nonneg; [|lia].
    apply round_half_even_nonneg; nia. }
  assert (Hy : 0 < 2 ^ Z.max 0 (- e)) by (apply Z.pow_pos_nonneg; lia).
  set (x := _ * 2 ^ Z.max 0 e) in *. set (y := 2 ^ Z.max 0 (- e)) in *.
  clearbody x y. destruct y as [|y|y]; try lia.
  unfold Qle, Qopp, Qdiv, Qmult, Qinv, inject_Z. simpl. nia.
Qed.

Section Training.
Context {P : Type}.
Variable tok : Tokenizer.
Variable model : Model P.
Variable sacrebleu : list string -> list (list string) -> result Q.

Lemma evaluate_model_silent (dl : DataLoader) (max_length num_beams : Z) :
  silent (evaluate_model tok model sacrebleu dl max_length num_beams).
Proof.
  intros w.
  destruct (evaluate_model_calls tok model sacrebleu max_length num_beams dl w)
    as (evs & tail & -> & Hevs & Htail).
  rewrite optimizer_steps_app.
  change (CallEval :: evs ++ tail) with ([CallEval] ++ evs ++ tail).
  rewrite !optimizer_steps_app.
  rewrite (optimizer_steps_none _ evs (fun _ H => H) Hevs).
  rewrite (optimizer_steps_none _ tail (fun _ H => H) Htail).
  simpl. by rewrite app_nil_r.
Qed.

(** One pass through the body of the batch loop runs the optimizer once,
    at the current [global_step], whatever happens afterwards, and can
    only return [global_step + 1]. *)
Lemma train_iteration_steps (args : Args) (max_steps : Z) (dl : DataLoader)
    (epoch : nat) (g : Z) (batch : Batch) (w : world P) :
  let run := train_iteration tok model sacrebleu args max_steps dl epoch g
               batch w in
  optimizer_steps (history (snd run)) = optimizer_steps (history w) ++ [g] /\
  forall g', fst run = Ok g' -> g' = g + 1.
Proof.
  set (rest := fun out : tensor2 * Q =>
    lr <- current_lr model ;;
    wandb_log [("train_loss", snd out); ("learning_rate", lr);
               ("epoch", inject_Z (Z.of_nat epoch))] (g + 1) ;;
    r <- lift (py_mod (g + 1) (logging_steps args)) ;;
    (if r =? 0 then
       accuracy <- lift (batch_word_accuracy (fst out) (labels batch)
                           (pad_token_id tok)) ;;
       wandb_log [("train_batch_word_accuracy", accuracy)] (g + 1)
     else ret tt) ;;
    r <- lift (py_mod (g + 1) (eval_every_steps args)) ;;
    (if (r =? 0) || (g + 1 =? max_steps) then
       ev <- evaluate_model tok model sacrebleu dl (max_seq_length args)
               (beam_size args) ;;
       wandb_log [("eval/bleu", bleu (fst (fst (fst ev))));
                  ("eval/generation_length",
                   generation_length (fst (fst (fst ev))))] (g + 1) ;;
       save_pretrained
     else ret tt) ;;
    (ret (g + 1) : M P Z)).
  assert (Hsilent : forall out, silent (rest out)).
  { intros out. unfold rest.
    apply silent_bind; [by intros w'|intros lr].
    apply silent_bind; [by apply silent_record|intros _].
    apply silent_bind; [apply silent_lift|intros r].
    apply silent_bind.
    { destruct (r =? 0); [|apply silent_ret].
      apply silent_bind; [apply silent_lift|intros acc].
      by apply silent_record. }
    intros _. apply silent_bind; [apply silent_lift|intros r'].
    apply silent_bind; [|intros _; apply silent_ret].
    destruct ((r' =? 0) || (g + 1 =? max_steps)); [|apply silent_ret].
    apply silent_bind; [apply evaluate_model_silent|intros ev].
    apply silent_bind; [by apply silent_record|intros _].
    by apply silent_record. }
  assert (Hret : forall out, returns_only (rest out) (g + 1)).
  { intros out. unfold rest.
    repeat (apply returns_only_bind; intros ?).
    apply returns_only_ret. }
  intros run.
  assert (Hrun : run = rest (forward model (params w) (training w)
                               (input_ids batch) (labels batch))
                   (record (CallOptimizerStep g)
                      (set_params (update model (params w) (input_ids batch)
                                     (labels batch)) w))) by reflexivity.
  rewrite Hrun. split.
  - rewrite Hsilent, optimizer_steps_record. reflexivity.
  - intros g'. apply Hret.
Qed.

Lemma batch_loop_cons (body : Z -> Batch -> M P Z) (max_steps : Z)
    (b : Batch) (rest : list Batch) (g : Z) (w : world P) :
  batch_loop body max_steps (b :: rest) g w
  = match body g b w with
    | (Ok g1, w1) =>
        if max_steps <=? g1 then (Ok g1, w1)
        else batch_loop body max_steps rest g1 w1
    | (Raise e, w1) => (Raise e, w1)
    end.
Proof.
  simpl. unfold bind. destruct (body g b w) as [[g1|e] w1]; [|done].
  by destruct (max_steps <=? g1).
Qed.

Lemma epoch_loop_cons (args : Args) (max_steps : Z) (tl : TrainLoader)
    (dl : DataLoader) (epoch : nat) (rest : list nat) (g : Z) (w : world P) :
  epoch_loop tok model sacrebleu args max_steps tl dl (epoch :: rest) g w
  = match batch_loop
            (train_iteration tok model sacrebleu args max_steps dl epoch)
            max_steps (epoch_batches tl epoch) g
            (record CallTrain (set_training true w)) with
    | (Ok g1, w1) =>
        epoch_loop tok model sacrebleu args max_steps tl dl rest g1 w1
    | (Raise e, w1) => (Raise e, w1)
    end.
Proof. reflexivity. Qed.

(** The batch loop entered below the budget: it runs the optimizer at
    [g], [g+1], ... and never at or beyond [max_steps]; when it ends
    normally it was either stopped by the [break] at [max_steps] or went
    through all its batches. *)
Lemma batch_loop_steps (args : Args) (max_steps : Z) (dl : DataLoader)
    (epoch : nat) (batches : list Batch) (g : Z) (w : world P) :
  g < max_steps ->
  let run := batch_loop
               (train_iteration tok model sacrebleu args max_steps dl epoch)
               max_steps batches g w in
  exists n,
    0 <= n <= len batches /\ g + n <= max_steps /\
    optimizer_steps (history (snd run))
    = optimizer_steps (history w) ++ seqZ g n /\
    forall g', fst run = Ok g' ->
               g' = g + n /\ (g' = max_steps \/ n = len batches).
Proof.
  revert g w. induction batches as [|b batches IH]; intros g w Hlt run.
  - exists 0. subst run. simpl. rewrite app_nil_r.
    split; [done|]. split; [lia|]. split; [done|].
    intros g' [= <-]. split; [lia | by right].
  - subst run. rewrite batch_loop_cons.
    destruct (train_iteration_steps args max_steps dl epoch g b w)
      as [Hsteps Hret].
    destruct (train_iteration _ _ _ _ _ _ _ _ _ _) as [[g1|e] w1];
      simpl in Hsteps, Hret.
    + specialize (Hret g1 eq_refl). subst g1.
      destruct (Z.leb_spec max_steps (g + 1)) as [Hge|Hlt'].
      * exists 1. simpl. unfold len. rewrite length_cons.
        split; [lia|]. split; [lia|]. split; [exact Hsteps|].
        intros g' [= <-]. split; [done|left; lia].
      * destruct (IH (g + 1) w1 Hlt') as (n & Hn & Hle & Hst & Hok).
        exists (1 + n). unfold len in *. rewrite length_cons.
        split; [lia|]. split; [lia|]. split.
        -- rewrite Hst, Hsteps, <- app_assoc. f_equal.
           rewrite (seqZ_cons g (1 + n)) by lia.
           simpl. do 2 f_equal; lia.
        -- intros g' Hg'. destruct (Hok g' Hg') as [-> Hcase].
           split; [lia|]. destruct Hcase; [by left | right; lia].
    + exists 1. simpl. unfold len. rewrite length_cons.
      split; [lia|]. split; [lia|]. split; [exact Hsteps | done].
Qed.

Lemma epoch_batches_length (tl : TrainLoader) (epoch : nat) :
  len (epoch_batches tl epoch) = Z.of_nat (steps_per_epoch tl).
Proof. unfold len, epoch_batches. by rewrite length_map, length_seq. Qed.

(** The epoch loop, when its last epoch starts below the budget: the
    optimizer runs at [g], [g+1], ... and never at or beyond
    [max_steps]; when the budget is within reach of the epochs, a run
    that ends normally ends at [max_steps]. *)
Lemma epoch_loop_steps (args : Args) (max_steps : Z) (tl : TrainLoader)
    (dl : DataLoader) (epochs : list nat) (g : Z) (w : world P) :
  let s := Z.of_nat (steps_per_epoch tl) in
  let k := len epochs in
  1 <= s ->
  (1 <= k -> g + (k - 1) * s < max_steps) ->
  let run := epoch_loop tok model sacrebleu args max_steps tl dl epochs g w in
  exists n,
    0 <= n /\ (k = 0 -> n = 0) /\ (n = 0 \/ g + n <= max_steps) /\
    optimizer_steps (history (snd run))
    = optimizer_steps (history w) ++ seqZ g n /\
    forall g', fst run = Ok g' ->
               g' = g + n /\
               (1 <= k -> max_steps <= g + k * s -> g' = max_steps).
Proof.
  intros s. revert g w.
  induction epochs as [|epoch epochs IH]; intros g w k Hs Hlast run.
  - exists 0. subst run. simpl. rewrite app_nil_r.
    split; [done|]. split; [done|]. split; [by left|]. split; [done|].
    intros g' [= <-]. split; [lia|].
    subst k. unfold len. simpl. lia.
  - assert (Hk : k = 1 + len epochs)
      by (subst k; unfold len; rewrite length_cons; lia).
    assert (Hk0 : 0 <= len epochs) by (unfold len; lia).
    assert (Hg : g < max_steps) by nia.
    subst run. rewrite epoch_loop_cons.
    set (w0 := record CallTrain (set_training true w)).
    destruct (batch_loop_steps args max_steps dl epoch
                (epoch_batches tl epoch) g w0 Hg)
      as (n1 & Hn1 & Hle1 & Hst1 & Hok1).
    rewrite epoch_batches_length in Hn1, Hok1. fold s in Hn1, Hok1.
    assert (Hw0 : optimizer_steps (history w0) = optimizer_steps (history w)).
    { unfold w0. rewrite optimizer_steps_record. simpl. by rewrite app_nil_r. }
    rewrite Hw0 in Hst1.
    destruct (batch_loop _ _ _ _ _) as [[g1|e] w1]; simpl in Hst1, Hok1.
    + destruct (Hok1 g1 eq_refl) as [-> Hcase].
      assert (Hlast' : 1 <= len epochs ->
                       g + n1 + (len epochs - 1) * s < max_steps).
      { intros Hne. destruct Hcase as [Hstop| ->]; nia. }
      destruct (IH (g + n1) w1 Hs Hlast') as (n2 & Hn2 & Hk2 & Hb2 & Hst2 & Hok2).
      exists (n1 + n2). split; [lia|]. split; [lia|]. split; [right; lia|].
      split.
      * rewrite Hst2, Hst1, <- app_assoc. f_equal.
        by rewrite seqZ_app by lia.
      * intros g' Hg'. destruct (Hok2 g' Hg') as [-> Hend].
        split; [lia|]. intros _ Hreach.
        destruct (Z.eq_dec (len epochs) 0) as [H0|Hne].
        -- specialize (Hk2 H0). subst n2.
           destruct Hcase as [Hstop| ->]; [lia|]. nia.
        -- apply Hend; [lia|]. destruct Hcase as [Hstop| ->]; nia.
    + exists n1. split; [lia|]. split; [lia|]. split; [right; lia|].
      split; [exact Hst1 | done].
Qed.

Lemma batch_loop_ext (body1 body2 : Z -> Batch -> M P Z) (max_steps : Z)
    (batches : list Batch) (g : Z) (w : world P) :
  (forall g b w, body1 g b w = body2 g b w) ->
  batch_loop body1 max_steps batches g w
  = batch_loop body2 max_steps batches g w.
Proof.
  intros Hbody. revert g w.
  induction batches as [|b batches IH]; intros g w; [done|].
  rewrite !batch_loop_cons, Hbody.
  destruct (body2 g b w) as [[g1|e] w1]; [|done].
  by destruct (max_steps <=? g1).
Qed.

(** The epoch loop reads its arguments only through the loop body. *)
Lemma epoch_loop_ext (args1 args2 : Args) (max_steps : Z) (tl : TrainLoader)
    (dl : DataLoader) (epochs : list nat) (g : Z) (w : world P) :
  (forall epoch g b w,
     train_iteration tok model sacrebleu args1 max_steps dl epoch g b w
     = train_iteration tok model sacrebleu args2 max_steps dl epoch g b w) ->
  epoch_loop tok model sacrebleu args1 max_steps tl dl epochs g w
  = epoch_loop tok model sacrebleu args2 max_steps tl dl epochs g w.
Proof.
  intros Hbody. revert g w.
  induction epochs as [|epoch epochs IH]; intros g w; [done|].
  rewrite !epoch_loop_cons.
  rewrite (batch_loop_ext _ _ _ _ _ _ (Hbody epoch)).
  destruct (batch_loop _ _ _ _ _) as [[g1|e] w1]; [apply IH | done].
Qed.

Lemma main_unfold (args : Args) (tl : TrainLoader) (dl : DataLoader)
    (sampled : nat * nat) (w : world P) :
  main tok model sacrebleu args tl dl sampled w
  = match resolve_steps args (Z.of_nat (steps_per_epoch tl)) with
    | Raise e => (Raise e, w)
    | Ok (max_steps, epochs) =>
        match progress_bar max_steps with
        | Raise e => (Raise e, w)
        | Ok _ =>
            if Z.of_nat (steps_per_epoch tl) =? 0
            then (Raise "StopIteration", w)
            else
              match look_at_the_data (first_batch tl) sampled with
              | Raise e => (Raise e, w)
              | Ok _ =>
                  match epoch_loop tok model sacrebleu args max_steps tl dl
                          (seq 0 (Z.to_nat epochs)) 0 w with
                  | (Ok g, w1) => (Ok g, record CallSavePretrained w1)
                  | (Raise e, w1) => (Raise e, w1)
                  end
              end
        end
    end.
Proof.
  unfold main, bind, lift.
  destruct (resolve_steps _ _) as [[max_steps epochs]|e]; [|done].
  cbn [fst snd].
  destruct (progress_bar max_steps) as [[]|e]; [|done].
  destruct (Z.of_nat (steps_per_epoch tl) =? 0); [done|].
  unfold ret at 1.
  destruct (look_at_the_data _ _) as [[]|e]; [|done].
  by destruct (epoch_loop _ _ _ _ _ _ _ _ _ _) as [[g|e] w1].
Qed.

(** Within the range of [budget_in_float_range] the last epoch starts
    below the budget and the epochs cover it; a budget that is not
    positive gives no epoch. *)
Lemma resolve_steps_bounds (args : Args) (s max_steps epochs : Z) :
  1 <= s ->
  budget_in_float_range args s ->
  resolve_steps args s = Ok (max_steps, epochs) ->
  (1 <= epochs -> (epochs - 1) * s < max_steps <= epochs * s) /\
  (epochs <= 0 -> max_steps <= 0).
Proof.
  intros Hs. unfold resolve_steps, budget_in_float_range.
  destruct (max_train_steps args) as [m|].
  - intros [Hm Hs63].
    destruct (py_truediv_float m s) as [v|e] eqn:Hv; [|done].
    intros [= <- <-].
    destruct (Z.le_gt_cases m 0) as [Hneg|Hpos].
    + pose proof (py_truediv_float_nonpos m s v Hneg ltac:(lia) Hv).
      split; [lia | done].
    + destruct (py_truediv_float_ceiling m s) as (v' & Hv' & Hwin);
        [lia|lia|].
      rewrite Hv in Hv'. injection Hv' as <-.
      split; [done | nia].
  - intros _ [= <- <-]. split; [intros _|]; nia.
Qed.

(** The optimizer steps of a run of [main] whose budget is in the range
    of [budget_in_float_range]. *)
Lemma main_steps (args : Args) (tl : TrainLoader) (dl : DataLoader)
    (sampled : nat * nat) (w : world P) (max_steps epochs : Z) :
  resolve_steps args (Z.of_nat (steps_per_epoch tl)) = Ok (max_steps, epochs) ->
  budget_in_float_range args (Z.of_nat (steps_per_epoch tl)) ->
  let run := main tok model sacrebleu args tl dl sampled w in
  exists n,
    0 <= n <= Z.max 0 max_steps /\
    optimizer_steps (history (snd run))
    = optimizer_steps (history w) ++ seqZ 0 n /\
    forall g, fst run = Ok g -> g = Z.max 0 max_steps /\ n = g.
Proof.
  intros Hres Hrange run.
  subst run. rewrite main_unfold, Hres.
  destruct (progress_bar max_steps) as [[]|e].
  2:{ exists 0. simpl. rewrite app_nil_r. split; [lia|]. by split. }
  destruct (Z.eqb_spec (Z.of_nat (steps_per_epoch tl)) 0) as [H0|Hs].
  { exists 0. simpl. rewrite app_nil_r. split; [lia|]. by split. }
  destruct (look_at_the_data _ _) as [[]|e].
  2:{ exists 0. simpl. rewrite app_nil_r. split; [lia|]. by split. }
  assert (Hs1 : 1 <= Z.of_nat (steps_per_epoch tl)) by lia.
  destruct (resolve_steps_bounds _ _ _ _ Hs1 Hrange Hres) as [Hin Hout].
  assert (Hk : len (seq 0 (Z.to_nat epochs)) = Z.max 0 epochs)
    by (unfold len; rewrite length_seq; lia).
  destruct (epoch_loop_steps args max_steps tl dl
              (seq 0 (Z.to_nat epochs)) 0 w Hs1)
    as (n & Hn & Hk0 & Hb & Hst & Hok).
  { rewrite Hk. intros Hk1. assert (He : 1 <= epochs) by lia.
    replace (Z.max 0 epochs) with epochs by lia. specialize (Hin He). lia. }
  rewrite Hk in Hk0, Hok.
  assert (Hnmax : n <= Z.max 0 max_steps) by lia.
  exists n. split; [lia|].
  destruct (epoch_loop _ _ _ _ _ _ _ _ _ _) as [[g1|e] w1];
    simpl in Hst, Hok; simpl.
  - split; [by rewrite optimizer_steps_app, Hst; simpl; rewrite app_nil_r|].
    intros g [= <-]. destruct (Hok g1 eq_refl) as [Hg Hend].
    destruct (Z.le_gt_cases 1 epochs) as [He|He].
    + assert (g1 = max_steps) by (apply Hend; specialize (Hin He); nia).
      specialize (Hin He). split; nia.
    + assert (n = 0) by (apply Hk0; lia).
      assert (max_steps <= 0) by (apply Hout; lia). split; lia.
  - split; [exact Hst | done].
Qed.


(** The run of [main] does not depend on [generation_type]: the
    evaluation is called with [beam_size] and nothing else of the
    decoding policy. *)
Theorem generation_type_is_ignored (g : string) (args : Args)
    (tl : TrainLoader) (dl : DataLoader) (sampled : nat * nat) (w : world P) :
  main tok model sacrebleu (with_generation_type g args) tl dl sampled w
  = main tok model sacrebleu args tl dl sampled w.
Proof.
  rewrite !main_unfold.
  change (resolve_steps (with_generation_type g args))
    with (resolve_steps args).
  destruct (resolve_steps _ _) as [[max_steps epochs]|e]; [|done].
  destruct (progress_bar max_steps) as [[]|e]; [|done].
  destruct (Z.of_nat (steps_per_epoch tl) =? 0); [done|].
  destruct (look_at_the_data _ _) as [[]|e]; [|done].
  by rewrite (epoch_loop_ext (with_generation_type g args) args).
Qed.




End Training.


(** The run of that witness: three optimizer steps, the last one in the
    middle of the second epoch, and the run returns 3. *)
Example three_steps_run :
  let run := main Toy.tokenizer Toy.model Toy.sacrebleu Toy.three_steps
               Toy.train2 Toy.eval3 Toy.sampled Toy.world0 in
  fst run = Ok 3 /\ optimizer_steps (history (snd run)) = [0; 1; 2].
Proof. split; reflexivity. Qed.

(** *** A budget beyond 2^53 *)






(** C6, on the code. With [--generation_type greedy] and the other
    arguments at their defaults the evaluation calls [model.generate]
    with [num_beams = 5], as it does with [--generation_type beam_search]:
    the two runs are the same. *)
Theorem greedy_run_uses_beam_width :
  let run g := main Toy.tokenizer Toy.model Toy.sacrebleu
                 (with_generation_type g default_args)
                 Toy.train2 Toy.eval3 Toy.sampled Toy.world0 in
  generation_type (with_generation_type "greedy" default_args) = "greedy" /\
  beams_used (history (snd (run "greedy"))) = [5; 5] /\
  run "greedy" = run "beam_search".
Proof.
  split; [reflexivity|]. split; [reflexivity|].
  by rewrite !generation_type_is_ignored.
Qed.

(** The score of the corpus is not the mean of the scores of the batches:
    on the three toy examples the corpus scores 100/3, the two batches
    score 50 and 0. *)
Example corpus_score_is_not_batch_mean :
  Toy.sacrebleu ["a"; "abcd"; "abcdefg"] [["b"]; ["abcd"]; ["x"]]
  = Ok (100 # 3)%Q /\
  Toy.sacrebleu ["a"; "abcd"] [["b"]; ["abcd"]] = Ok (100 # 2)%Q /\
  Toy.sacrebleu ["abcdefg"] [["x"]] = Ok (0 # 1)%Q /\
  ~ ((100 # 3) == ((100 # 2) + (0 # 1)) / 2)%Q.
Proof. repeat split; try reflexivity. discriminate. Qed.

(** On a batch whose labels are all the pad id the accuracy always raises. *)
Lemma accuracy_all_pad (predictions labels : tensor2) (pad_id : Z) :
  Forall (Forall (fun l => l = pad_id)) labels ->
  batch_word_accuracy predictions labels pad_id = Raise ZeroDivisionError.
Proof.
  intros Hall. apply mask_sum_zero in Hall.
  unfold batch_word_accuracy, py_truediv. by rewrite Hall.
Qed.

(** * Further properties *)

(** ** The schedule of a training run *)

Lemma marks_app (h1 h2 : list call) : marks (h1 ++ h2) = marks h1 ++ marks h2.
Proof. apply flat_map_app. Qed.

Lemma marks_none (Q : call -> Prop) (evs : list call) :
  (forall c, Q c -> marks [c] = []) -> Forall Q evs -> marks evs = [].
Proof.
  intros HQ. induction 1 as [|c evs Hc _ IH]; [done|].
  change (c :: evs) with ([c] ++ evs). by rewrite marks_app, (HQ c Hc), IH.
Qed.

Lemma bind_ok_inv {P A B} (m : M P A) (k : A -> M P B) (w w' : world P) (b : B) :
  bind m k w = (Ok b, w') ->
  exists a w1, m w = (Ok a, w1) /\ k a w1 = (Ok b, w').
Proof.
  unfold bind. destruct (m w) as [[a|e] w1]; [|done]. intros H. by exists a, w1.
Qed.

Lemma py_mod_ok (a b r : Z) : py_mod a b = Ok r -> b <> 0 /\ r = a mod b.
Proof.
  unfold py_mod. destruct (Z.eqb_spec b 0); [done|]. by intros [= <-].
Qed.

Section Schedule.
Context {P : Type}.
Variable tok : Tokenizer.
Variable model : Model P.
Variable sacrebleu : list string -> list (list string) -> result Q.

(** An evaluation leaves no mark: it takes no optimizer step, logs
    nothing and saves nothing, whatever its outcome. *)
Lemma evaluate_model_marks (dl : DataLoader) (max_length num_beams : Z)
    (w : world P) :
  marks (history (snd (evaluate_model tok model sacrebleu dl max_length
                         num_beams w)))
  = marks (history w).
Proof.
  destruct (evaluate_model_calls tok model sacrebleu max_length num_beams dl w)
    as (evs & tail & -> & Hevs & Htail).
  change (CallEval :: evs ++ tail) with ([CallEval] ++ evs ++ tail).
  rewrite !marks_app.
  rewrite (marks_none _ evs) with (2 := Hevs)
    by (intros c Hc; destruct c; simpl in *; done).
  rewrite (marks_none _ tail) with (2 := Htail)
    by (intros c Hc; destruct c; simpl in *; done).
  simpl. by rewrite app_nil_r.
Qed.

(** An iteration that runs to its end leaves the marks of its step. *)
Lemma train_iteration_marks (args : Args) (max_steps : Z) (dl : DataLoader)
    (epoch : nat) (g g' : Z) (batch : Batch) (w w' : world P) :
  train_iteration tok model sacrebleu args max_steps dl epoch g batch w
  = (Ok g', w') ->
  marks (history w') = marks (history w) ++ iteration_marks args max_steps g.
Proof.
  intros H. unfold train_iteration in H.
  apply bind_ok_inv in H as (out & w1 & H1 & H). injection H1 as <- <-.
  apply bind_ok_inv in H as ([] & w2 & H2 & H). injection H2 as <-.
  apply bind_ok_inv in H as (lr & w3 & H3 & H). injection H3 as <- <-.
  apply bind_ok_inv in H as ([] & w4 & H4 & H). injection H4 as <-.
  apply bind_ok_inv in H as (r & w5 & H5 & H). injection H5 as Hr <-.
  apply py_mod_ok in Hr as [_ ->].
  apply bind_ok_inv in H as ([] & w6 & H6 & H).
  apply bind_ok_inv in H as (r' & w7 & H7 & H). injection H7 as Hr' <-.
  apply py_mod_ok in Hr' as [_ ->].
  apply bind_ok_inv in H as ([] & w8 & H8 & H). injection H as _ <-.
  unfold iteration_marks, evaluation_due.
  assert (Hacc : marks (history w6)
                 = (marks (history w) ++
                    [MarkStep g;
                     MarkLog ["train_loss"; "learning_rate"; "epoch"] (g + 1)])
                   ++ (if (g + 1) mod logging_steps args =? 0
                       then [MarkLog ["train_batch_word_accuracy"] (g + 1)]
                       else [])).
  { destruct ((g + 1) mod logging_steps args =? 0).
    - apply bind_ok_inv in H6 as (acc & w9 & H9 & H6).
      injection H9 as _ <-. injection H6 as <-.
      simpl. rewrite !marks_app. simpl. by rewrite <- !app_assoc.
    - injection H6 as <-. simpl. rewrite !marks_app, app_nil_r. simpl.
      by rewrite <- !app_assoc. }
  destruct (((g + 1) mod eval_every_steps args =? 0) || (g + 1 =? max_steps)).
  - apply bind_ok_inv in H8 as (ev & w9 & H9 & H8).
    apply bind_ok_inv in H8 as ([] & w10 & H10 & H8).
    injection H10 as <-. injection H8 as <-.
    pose proof (evaluate_model_marks dl (max_seq_length args) (beam_size args)
                  w6) as Hev.
    rewrite H9 in Hev. simpl in Hev.
    simpl. rewrite !marks_app, Hev, Hacc. simpl.
    by rewrite <- !app_assoc.
  - injection H8 as <-. rewrite Hacc, app_nil_r. by rewrite <- !app_assoc.
Qed.

Lemma batch_loop_marks (args : Args) (max_steps : Z) (dl : DataLoader)
    (epoch : nat) (batches : list Batch) (g g' : Z) (w w' : world P) :
  batch_loop (train_iteration tok model sacrebleu args max_steps dl epoch)
    max_steps batches g w = (Ok g', w') ->
  exists n,
    0 <= n /\ g' = g + n /\
    marks (history w')
    = marks (history w) ++ flat_map (iteration_marks args max_steps) (seqZ g n).
Proof.
  revert g w. induction batches as [|b batches IH]; intros g w Hrun.
  - injection Hrun as <- <-. exists 0. simpl. rewrite app_nil_r.
    split; [done|]. split; [lia | done].
  - rewrite batch_loop_cons in Hrun.
    destruct (train_iteration_steps tok model sacrebleu args max_steps dl
                epoch g b w) as [_ Hret].
    destruct (train_iteration _ _ _ _ _ _ _ _ _ _) as [[g1|e] w1] eqn:Hit;
      [|done].
    specialize (Hret g1 eq_refl). subst g1.
    apply train_iteration_marks in Hit.
    destruct (max_steps <=? g + 1).
    + injection Hrun as <- <-. exists 1.
      split; [lia|]. split; [done|].
      rewrite Hit. simpl. by rewrite app_nil_r.
    + destruct (IH (g + 1) w1 Hrun) as (n & Hn & -> & Hm).
      exists (1 + n). split; [lia|]. split; [lia|].
      rewrite Hm, Hit, <- app_assoc. f_equal.
      rewrite (seqZ_cons g (1 + n)) by lia.
      replace (Z.succ g) with (g + 1) by lia.
      replace (Z.pred (1 + n)) with n by lia. reflexivity.
Qed.

Lemma epoch_loop_marks (args : Args) (max_steps : Z) (tl : TrainLoader)
    (dl : DataLoader) (epochs : list nat) (g g' : Z) (w w' : world P) :
  epoch_loop tok model sacrebleu args max_steps tl dl epochs g w = (Ok g', w') ->
  exists n,
    0 <= n /\ g' = g + n /\
    marks (history w')
    = marks (history w) ++ flat_map (iteration_marks args max_steps) (seqZ g n).
Proof.
  revert g w.
  induction epochs as [|epoch epochs IH]; intros g w Hrun.
  - injection Hrun as <- <-. exists 0. simpl. rewrite app_nil_r.
    split; [done|]. split; [lia | done].
  - rewrite epoch_loop_cons in Hrun.
    destruct (batch_loop _ _ _ _ _) as [[g1|e] w1] eqn:Hbl; [|done].
    apply batch_loop_marks in Hbl as (n1 & Hn1 & -> & Hm1).
    destruct (IH (g + n1) w1 Hrun) as (n2 & Hn2 & -> & Hm2).
    exists (n1 + n2). split; [lia|]. split; [lia|].
    assert (Hw0 : marks (history (record CallTrain (set_training true w)))
                  = marks (history w)).
    { simpl. rewrite marks_app. simpl. by rewrite app_nil_r. }
    rewrite Hm2, Hm1, Hw0, <- app_assoc. f_equal.
    by rewrite seqZ_app, flat_map_app by lia.
Qed.

(** The schedule of a run of [main] that ends normally, whatever the
    number of epochs that line 448 has computed. *)
Lemma main_marks (args : Args) (tl : TrainLoader) (dl : DataLoader)
    (sampled : nat * nat) (w w' : world P) (max_steps epochs g : Z) :
  resolve_steps args (Z.of_nat (steps_per_epoch tl)) = Ok (max_steps, epochs) ->
  main tok model sacrebleu args tl dl sampled w = (Ok g, w') ->
  0 <= g /\
  marks (history w')
  = marks (history w)
    ++ flat_map (iteration_marks args max_steps) (seqZ 0 g) ++ [MarkSave].
Proof.
  intros Hres Hrun. rewrite main_unfold, Hres in Hrun.
  destruct (progress_bar max_steps) as [[]|e]; [|done].
  destruct (Z.of_nat (steps_per_epoch tl) =? 0); [done|].
  destruct (look_at_the_data _ _) as [[]|e]; [|done].
  destruct (epoch_loop _ _ _ _ _ _ _ _ _ _) as [[g1|e] w1] eqn:Hel; [|done].
  injection Hrun as <- <-.
  apply epoch_loop_marks in Hel as (n & Hn & -> & Hm).
  split; [lia|].
  simpl. by rewrite marks_app, Hm, <- app_assoc.
Qed.

(** Within the range of [budget_in_float_range] a run that ends
    normally ends at the budget. *)
Lemma main_ends_at_budget (args : Args) (tl : TrainLoader) (dl : DataLoader)
    (sampled : nat * nat) (w w' : world P) (max_steps epochs g : Z) :
  resolve_steps args (Z.of_nat (steps_per_epoch tl)) = Ok (max_steps, epochs) ->
  budget_in_float_range args (Z.of_nat (steps_per_epoch tl)) ->
  main tok model sacrebleu args tl dl sampled w = (Ok g, w') ->
  g = Z.max 0 max_steps.
Proof.
  intros Hres Hrange Hrun.
  destruct (main_steps tok model sacrebleu args tl dl sampled w _ _
              Hres Hrange) as (n & _ & _ & Hok).
  rewrite Hrun in Hok. by destruct (Hok g eq_refl).
Qed.

End Schedule.

Lemma logged_at_app (key : string) (ms1 ms2 : list mark) :
  logged_at key (ms1 ++ ms2) = logged_at key ms1 ++ logged_at key ms2.
Proof. apply flat_map_app. Qed.

(** When every iteration logs [key] exactly at the steps that [due]
    selects, so does a stretch of iterations. *)
Lemma logged_at_iterations (key : string) (args : Args) (max_steps : Z)
    (due : Z -> bool) :
  (forall g, logged_at key (iteration_marks args max_steps g)
             = if due (g + 1) then [g + 1] else []) ->
  forall (n : nat) (g0 : Z),
    logged_at key (flat_map (iteration_marks args max_steps)
                     (seqZ g0 (Z.of_nat n)))
    = List.filter due (seqZ (g0 + 1) (Z.of_nat n)).
Proof.
  intros Hone. induction n as [|n IH]; intros g0; [done|].
  rewrite !(seqZ_cons _ (Z.of_nat (S n))) by lia.
  replace (Z.pred (Z.of_nat (S n))) with (Z.of_nat n) by lia.
  cbn [flat_map List.filter]. rewrite logged_at_app, Hone.
  replace (Z.succ g0) with (g0 + 1) by lia.
  replace (Z.succ (g0 + 1)) with (g0 + 1 + 1) by lia.
  rewrite IH. by destruct (due (g0 + 1)).
Qed.

(** The iteration that reaches the budget ends with an evaluation and a
    checkpoint. *)
Lemma last_iteration_marks (args : Args) (max_steps : Z) :
  exists pre,
    iteration_marks args max_steps (max_steps - 1)
    = pre ++ [MarkLog ["eval/bleu"; "eval/generation_length"] max_steps;
              MarkSave].
Proof.
  unfold iteration_marks, evaluation_due.
  replace (max_steps - 1 + 1) with max_steps by lia.
  rewrite Z.eqb_refl, orb_true_r. eexists. rewrite !app_assoc. reflexivity.
Qed.

Section ScheduleProperties.
Context {P : Type}.
Variable tok : Tokenizer.
Variable model : Model P.
Variable sacrebleu : list string -> list (list string) -> result Q.

(** X1. With a step budget in the range where line 448 computes the
    exact ceiling (always without [--max_train_steps], below 2^53 with
    it), a run of [main] that ends normally returns the resolved
    [max_train_steps] (0 when it is not positive), and its optimizer
    steps, logs and checkpoints are, in this order, those of the
    iterations at [global_step] 0, 1, ..., [max_train_steps - 1], each run
    to its end, followed by the final checkpoint. *)
Theorem training_schedule (args : Args) (tl : TrainLoader) (dl : DataLoader)
    (sampled : nat * nat) (w w' : world P) (max_steps epochs g : Z)
    (Hres : resolve_steps args (Z.of_nat (steps_per_epoch tl))
            = Ok (max_steps, epochs))
    (Hrange : budget_in_float_range args (Z.of_nat (steps_per_epoch tl)))
    (Hrun : main tok model sacrebleu args tl dl sampled w = (Ok g, w')) :
  g = Z.max 0 max_steps /\
  marks (history w')
  = marks (history w)
    ++ flat_map (iteration_marks args max_steps) (seqZ 0 g) ++ [MarkSave].
Proof.
  split.
  - exact (main_ends_at_budget tok model sacrebleu args tl dl sampled w w'
             _ _ _ Hres Hrange Hrun).
  - exact (proj2 (main_marks tok model sacrebleu args tl dl sampled w w'
                    _ _ _ Hres Hrun)).
Qed.

(** X2. In a run of [main] that ends normally at [global_step = g], the
    training loss is logged once at every step 1..g, the batch accuracy
    exactly at the steps that are multiples of [logging_steps], and the
    evaluation results exactly at the steps that are multiples of
    [eval_every_steps] or equal to [max_train_steps]. *)
Theorem logging_and_evaluation_steps (args : Args) (tl : TrainLoader)
    (dl : DataLoader) (sampled : nat * nat) (w w' : world P)
    (max_steps epochs g : Z)
    (Hres : resolve_steps args (Z.of_nat (steps_per_epoch tl))
            = Ok (max_steps, epochs))
    (Hrun : main tok model sacrebleu args tl dl sampled w = (Ok g, w')) :
  exists new,
    marks (history w') = marks (history w) ++ new /\
    logged_at "train_loss" new = seqZ 1 g /\
    logged_at "train_batch_word_accuracy" new
    = List.filter (fun s => s mod logging_steps args =? 0) (seqZ 1 g) /\
    logged_at "eval/bleu" new
    = List.filter (evaluation_due args max_steps) (seqZ 1 g).
Proof.
  destruct (main_marks tok model sacrebleu args tl dl sampled w w' _ _ _
              Hres Hrun) as [Hg0 Hm].
  eexists. split; [exact Hm|].
  rewrite <- (Z2Nat.id g Hg0). rewrite !logged_at_app.
  split; [|split].
  - rewrite (logged_at_iterations _ _ _ (fun _ => true)).
    + simpl. rewrite app_nil_r. change (0 + 1) with 1.
      induction (seqZ 1 (Z.of_nat (Z.to_nat g))) as [|x l IH];
        [done | simpl; by rewrite IH].
    + intros g1. unfold iteration_marks.
      rewrite !logged_at_app. simpl.
      by destruct (_ =? 0), (evaluation_due _ _ _).
  - rewrite (logged_at_iterations _ _ _
               (fun s => s mod logging_steps args =? 0)).
    + simpl. by rewrite app_nil_r.
    + intros g1. unfold iteration_marks.
      rewrite !logged_at_app. simpl.
      by destruct (_ =? 0), (evaluation_due _ _ _).
  - rewrite (logged_at_iterations _ _ _ (evaluation_due args max_steps)).
    + simpl. by rewrite app_nil_r.
    + intros g1. unfold iteration_marks.
      rewrite !logged_at_app. simpl.
      by destruct (_ =? 0), (evaluation_due _ _ _).
Qed.

(** X3. With a positive step budget in the range where line 448
    computes the exact ceiling, a run of [main] that ends normally
    evaluates at its last step, whether or not that step is a multiple of
    [eval_every_steps], and then writes the checkpoint twice in a row:
    once after that evaluation and once after the loop. *)
Theorem final_evaluation_and_double_save (args : Args) (tl : TrainLoader)
    (dl : DataLoader) (sampled : nat * nat) (w w' : world P)
    (max_steps epochs g : Z)
    (Hres : resolve_steps args (Z.of_nat (steps_per_epoch tl))
            = Ok (max_steps, epochs))
    (Hrange : budget_in_float_range args (Z.of_nat (steps_per_epoch tl)))
    (Hpos : 1 <= max_steps)
    (Hrun : main tok model sacrebleu args tl dl sampled w = (Ok g, w')) :
  exists before,
    marks (history w')
    = before ++ [MarkLog ["eval/bleu"; "eval/generation_length"] max_steps;
                 MarkSave; MarkSave].
Proof.
  pose proof (main_ends_at_budget tok model sacrebleu args tl dl sampled w w'
                _ _ _ Hres Hrange Hrun) as Hg.
  destruct (main_marks tok model sacrebleu args tl dl sampled w w' _ _ _
              Hres Hrun) as [_ Hm].
  assert (Hgm : g = max_steps) by lia. rewrite Hgm in Hm.
  assert (Hseq : seqZ 0 max_steps = seqZ 0 (max_steps - 1) ++ [max_steps - 1]).
  { replace (seqZ 0 max_steps) with (seqZ 0 ((max_steps - 1) + 1))
      by (f_equal; lia).
    by rewrite seqZ_app by lia. }
  rewrite Hseq, flat_map_app in Hm. cbn [flat_map] in Hm.
  rewrite app_nil_r in Hm.
  destruct (last_iteration_marks args max_steps) as [pre Hpre].
  rewrite Hpre in Hm.
  exists (marks (history w)
          ++ flat_map (iteration_marks args max_steps) (seqZ 0 (max_steps - 1))
          ++ pre).
  rewrite Hm, <- !app_assoc. reflexivity.
Qed.

End ScheduleProperties.

(** ** Arguments that the script does not check *)

Section ZeroPeriod.
Context {P : Type}.
Variable tok : Tokenizer.
Variable model : Model P.
Variable sacrebleu : list string -> list (list string) -> result Q.

(** An iteration whose logging test or evaluation test divides by zero
    raises, after its optimizer step. *)
Lemma train_iteration_zero_period (args : Args) (max_steps : Z)
    (dl : DataLoader) (epoch : nat) (g : Z) (batch : Batch) (w : world P) :
  logging_steps args = 0 \/
  (logging_steps args <> 0 /\ (g + 1) mod logging_steps args <> 0 /\
   eval_every_steps args = 0) ->
  fst (train_iteration tok model sacrebleu args max_steps dl epoch g batch w)
  = Raise ZeroDivisionError.
Proof.
  intros Hzero.
  unfold train_iteration, bind, model_forward, optimizer_step, current_lr,
    wandb_log, lift, py_mod.
  destruct Hzero as [-> | (Hls & Hmod & ->)]; [done|].
  destruct (Z.eqb_spec (logging_steps args) 0) as [|_]; [done|].
  by destruct (Z.eqb_spec ((g + 1) mod logging_steps args) 0) as [|_].
Qed.

(** X4. With [--logging_steps 0], or with [--eval_every_steps 0] and a
    logging period that the first step does not hit, a run of [main] that
    has at least one batch to train on, a budget that the progress bar
    accepts, and gets past the display of the two sample rows raises [ZeroDivisionError] in
    its first iteration, after exactly one optimizer step has been
    taken. *)
Theorem zero_period_raises_after_first_step (args : Args) (tl : TrainLoader)
    (dl : DataLoader) (sampled : nat * nat) (w : world P)
    (max_steps epochs : Z)
    (Hzero : logging_steps args = 0 \/
             (logging_steps args <> 0 /\ 1 mod logging_steps args <> 0 /\
              eval_every_steps args = 0))
    (Hres : resolve_steps args (Z.of_nat (steps_per_epoch tl))
            = Ok (max_steps, epochs))
    (Hepochs : 1 <= epochs)
    (Hfits : max_steps < 2 ^ 63)
    (Hbatches : (1 <= steps_per_epoch tl)%nat)
    (Hlook : look_at_the_data (first_batch tl) sampled = Ok tt) :
  let run := main tok model sacrebleu args tl dl sampled w in
  fst run = Raise ZeroDivisionError /\
  optimizer_steps (history (snd run)) = optimizer_steps (history w) ++ [0].
Proof.
  intros run. subst run. rewrite main_unfold, Hres, Hlook.
  unfold progress_bar.
  destruct (Z.leb_spec (2 ^ 63) max_steps) as [|_]; [lia|].
  destruct (Z.eqb_spec (Z.of_nat (steps_per_epoch tl)) 0) as [|_]; [lia|].
  destruct (Z.to_nat epochs) as [|k] eqn:Hk; [lia|].
  cbn [seq]. rewrite epoch_loop_cons.
  unfold epoch_batches.
  destruct (steps_per_epoch tl) as [|j]; [lia|].
  cbn [seq map]. rewrite batch_loop_cons.
  set (w0 := record CallTrain (set_training true w)).
  pose proof (train_iteration_zero_period args max_steps dl 0 0
                (batch_at tl 0%nat 0%nat) w0 Hzero) as Hraise.
  destruct (train_iteration_steps tok model sacrebleu args max_steps dl 0 0
              (batch_at tl 0%nat 0%nat) w0) as [Hsteps _].
  destruct (train_iteration _ _ _ _ _ _ _ _ _ _) as [[g1|e] w1];
    simpl in Hraise, Hsteps; [done|].
  injection Hraise as ->. simpl. split; [done|].
  rewrite Hsteps, optimizer_steps_app. simpl. by rewrite app_nil_r.
Qed.

End ZeroPeriod.

(** ** The display of two rows of the first batch *)

Section SampleRows.
Context {P : Type}.
Variable tok : Tokenizer.
Variable model : Model P.
Variable sacrebleu : list string -> list (list string) -> result Q.


End SampleRows.

(** X5. With an explicit [max_train_steps] between 1 and 2^53 - 1 and
    at least one batch per epoch (their number fitting a machine
    integer), line 448 does not raise, and the recomputed
    [num_train_epochs] is the least number of epochs whose batches cover
    the budget. *)
Theorem recomputed_epochs_cover_budget (args : Args) (s m : Z)
    (Hover : max_train_steps args = Some m)
    (Hs : 1 <= s < 2 ^ 63) (Hm : 1 <= m < 2 ^ 53) :
  exists epochs,
    resolve_steps args s = Ok (m, epochs) /\
    (epochs - 1) * s < m <= epochs * s.
Proof.
  destruct (py_truediv_float_ceiling m s) as (v & Hv & Hwin); [lia|lia|].
  exists (Qceiling v). split; [|exact Hwin].
  unfold resolve_steps. by rewrite Hover, Hv.
Qed.

Lemma recomputed_epochs_cover_budget_witness :
  exists epochs,
    resolve_steps Toy.three_steps 2 = Ok (3, epochs) /\
    (epochs - 1) * 2 < 3 <= epochs * 2.
Proof.
  exact (recomputed_epochs_cover_budget Toy.three_steps 2 3 eq_refl
           ltac:(lia) ltac:(lia)).
Defined.

(** ** Missing language keys *)

Lemma texts_of_cases (f : string -> string) (lang : string)
    (translation : list (gmap string string)) :
  (Forall (fun ex => is_Some (ex !! lang)) translation /\
   exists ts, texts_of f lang translation = Ok ts) \/
  (Exists (fun ex => ex !! lang = None) translation /\
   texts_of f lang translation = Raise KeyError).
Proof.
  induction translation as [|ex rest IH]; [left; split; [done | by eexists]|].
  simpl. unfold getitem. destruct (ex !! lang) as [t|] eqn:Hex.
  - destruct IH as [[Hall [ts ->]] | [Hex' ->]].
    + left. split; [by constructor | by eexists].
    + right. split; [by apply Exists_cons_tl | done].
  - right. split; [by apply Exists_cons_hd | done].
Qed.

(** X6. [preprocess_function] returns exactly when every example has a
    text under both language codes; as soon as one example lacks the
    source or the target code it raises [KeyError], whatever the
    tokenizer. *)
Theorem preprocess_key_error (examples : gmap string (list (gmap string string)))
    (translation : list (gmap string string))
    (source_lang target_lang : string) (n : Z) (tok : Tokenizer)
    (Hex : examples !! "translation" = Some translation) :
  let missing ex := ex !! source_lang = None \/ ex !! target_lang = None in
  (Exists missing translation ->
   preprocess_function examples source_lang target_lang n tok = Raise KeyError)
  /\
  (~ Exists missing translation ->
   exists mi,
     preprocess_function examples source_lang target_lang n tok = Ok mi).
Proof.
  intros missing.
  assert (Hr : preprocess_function examples source_lang target_lang n tok
    = match texts_of (String.append task_prefix) source_lang translation with
      | Raise e => Raise e
      | Ok inputs =>
          match texts_of (fun t => t) target_lang translation with
          | Raise e => Raise e
          | Ok targets =>
              Ok {| mi_input_ids := tokenize tok false inputs n;
                    mi_labels := tokenize tok true targets n |}
          end
      end).
  { unfold preprocess_function, getitem. by rewrite Hex. }
  rewrite Hr. clear Hr.
  destruct (texts_of_cases (String.append task_prefix) source_lang translation)
    as [[Hs [ss ->]] | [Hs ->]];
    [destruct (texts_of_cases (fun t => t) target_lang translation)
       as [[Ht [ts ->]] | [Ht ->]]|].
  - split; [|by eexists].
    intros Hmiss. exfalso. apply Exists_exists in Hmiss as (ex & Hin & Hm).
    rewrite Forall_forall in Hs, Ht.
    destruct (Hs ex Hin) as [? Hs'], (Ht ex Hin) as [? Ht'].
    destruct Hm; congruence.
  - split; [done|]. intros Hno. exfalso. apply Hno.
    eapply Exists_impl; [exact Ht|]. intros ex H. by right.
  - split; [done|]. intros Hno. exfalso. apply Hno.
    eapply Exists_impl; [exact Hs|]. intros ex H. by left.
Qed.

Lemma preprocess_key_error_witness :
  preprocess_function Toy.hello "fr" "de" 10 Toy.tokenizer = Raise KeyError.
Proof.
  refine (proj1 (preprocess_key_error Toy.hello _ "fr" "de" 10 Toy.tokenizer
                   eq_refl) _).
  apply Exists_cons_hd. by left.
Defined.

(** ** The splits of the dataset *)

Lemma dd_map_lookup {D D'} (f : D -> result D') (d : list (string * D))
    (d' : list (string * D')) (k : string) :
  dd_map f d = Ok d' ->
  match dd_get d k with
  | Some v =>
      exists v', f v = Ok v' /\ (list_to_map d' : gmap string D') !! k = Some v'
  | None => (list_to_map d' : gmap string D') !! k = None
  end.
Proof.
  revert d'. induction d as [|[k0 v] d IH]; intros d'; simpl.
  - by intros [= <-].
  - destruct (f v) as [v'|e] eqn:Hf; [|done].
    destruct (dd_map f d) as [rest'|e]; [|done]. intros [= <-].
    simpl. destruct (String.eqb_spec k k0) as [->|Hne].
    + exists v'. by rewrite lookup_insert_eq.
    + rewrite lookup_insert_ne by done. by apply IH.
Qed.

(** X7. When the loaded dataset has no "validation" split, the script
    trains on the first part and evaluates on the second part of a cut of
    its "train" split; every other split of the dataset, a "test" split
    included, is left unused. *)
Theorem no_validation_evaluates_on_cut_of_train {D D'}
    (train_test_split : D -> result (D * D))
    (sample : list (string * D) -> list (string * D))
    (process : D -> result D') (raw : list (string * D))
    (train a b : D) (a' b' : D')
    (Hval : dd_get raw "validation" = None)
    (Htrain : dd_get raw "train" = Some train)
    (Hcut : train_test_split train = Ok (a, b))
    (Ha : process a = Ok a') (Hb : process b = Ok b') :
  prepare_datasets train_test_split false sample process raw = Ok (a', b').
Proof.
  unfold prepare_datasets, split_without_validation, dd_getitem.
  rewrite Hval, Htrain, Hcut. simpl. by rewrite Ha, Hb.
Qed.

(** X8. When the loaded dataset has a "validation" split (and no split
    spelled "validaion") and all its splits are tokenized, the script
    evaluates on the "test" split of the dataset when there is one, and
    fails with [KeyError] when there is none; the "validation" split is
    never the evaluation set. *)
Theorem validation_split_needs_test {D D'}
    (train_test_split : D -> result (D * D))
    (sample : list (string * D) -> list (string * D))
    (process : D -> result D') (raw : list (string * D))
    (validation train : D) (processed : list (string * D'))
    (Hval : dd_get raw "validation" = Some validation)
    (Htypo : dd_get raw "validaion" = None)
    (Htrain : dd_get raw "train" = Some train)
    (Hmap : dd_map process raw = Ok processed) :
  let out := prepare_datasets train_test_split false sample process raw in
  match dd_get raw "test" with
  | None => out = Raise KeyError
  | Some test =>
      exists train' test',
        process train = Ok train' /\ process test = Ok test' /\
        out = Ok (train', test')
  end.
Proof.
  intros out. subst out.
  unfold prepare_datasets, split_without_validation, dd_getitem.
  rewrite Hval. simpl. rewrite Htrain, Hmap.
  pose proof (dd_map_lookup process raw processed "train" Hmap) as Htr.
  pose proof (dd_map_lookup process raw processed "validaion" Hmap) as Hty.
  pose proof (dd_map_lookup process raw processed "test" Hmap) as Hte.
  rewrite Htrain in Htr. rewrite Htypo in Hty.
  destruct Htr as (train' & Hptrain & Hltrain).
  unfold select_eval_dataset, getitem. rewrite Hltrain, Hty.
  destruct (dd_get raw "test") as [test|].
  - destruct Hte as (test' & Hptest & Hltest). rewrite Hltest.
    by exists train', test'.
  - by rewrite Hte.
Qed.

(** ** More on the evaluation pass *)

Lemma for_each_app {P A S} (body : S -> A -> M P S) (xs ys : list A) (s : S)
    (w : world P) :
  for_each body (xs ++ ys) s w
  = match for_each body xs s w with
    | (Ok s', w') => for_each body ys s' w'
    | (Raise e, w') => (Raise e, w')
    end.
Proof.
  revert s w. induction xs as [|x xs IH]; intros s w; [done|].
  rewrite <- app_comm_cons, !for_each_cons.
  destruct (body s x w) as [[s'|e] w']; [apply IH | done].
Qed.

Lemma locals_after_snoc (tok : Tokenizer) (loc : EvalLocals)
    (bgs : list (Batch * tensor2)) (b : Batch) (g : tensor2) :
  last_batch (locals_after tok loc (bgs ++ [(b, g)]))
  = Some (input_ids b, batch_predictions tok g, batch_references tok b).
Proof. unfold locals_after. by rewrite fold_left_app. Qed.

Section EvaluationProperties.
Context {P : Type}.
Variable tok : Tokenizer.
Variable model : Model P.
Variable sacrebleu : list string -> list (list string) -> result Q.
Variables max_length num_beams : Z.

Local Abbreviation evaluate := (evaluate_model tok model sacrebleu).

(** X9. When [model.generate] raises on a batch after it succeeded on the
    batches before, the error leaves [evaluate_model] with the score not
    computed and the predictions and references of the batches before
    still in the cache of the module-level metric. *)
Theorem failed_evaluation_leaves_cache (dl : DataLoader)
    (pre post : list Batch) (b : Batch) (gens : list tensor2) (e : string)
    (w : world P)
    (Hb : batches_of dl = pre ++ b :: post)
    (Hpre : generations_ok model max_length num_beams (params w) pre gens)
    (Hfail : generate model (params w) false (input_ids b) max_length num_beams
             = Raise e) :
  let out := evaluate dl max_length num_beams w in
  fst out = Raise e /\
  bleu_predictions (snd out)
  = bleu_predictions w ++ flat_map (batch_predictions tok) gens /\
  bleu_references (snd out)
  = bleu_references w ++ flat_map (batch_references tok) pre /\
  compute_calls (history (snd out)) = compute_calls (history w).
Proof.
  intros out. subst out. rewrite evaluate_model_unfold, Hb, for_each_app.
  rewrite (eval_loop_ok _ _ _ _ _ gens); [|done|exact Hpre].
  rewrite for_each_cons, evaluate_batch_run.
  cbn [extend_world record set_training params training].
  rewrite Hfail. cbn [fst snd bleu_predictions bleu_references history].
  repeat split.
  cbn [history record extend_world set_training].
  rewrite !compute_calls_app, (compute_calls_loop tok). simpl.
  by rewrite !app_nil_r.
Qed.

(** X10. When every generation and the scoring succeed, the ids, the
    predictions and the references that [evaluate_model] returns beside
    its results are those of the last batch of the dataloader. *)
Theorem evaluation_returns_last_batch (dl : DataLoader)
    (init : list Batch) (b : Batch) (gens : list tensor2) (g : tensor2)
    (score : Q) (w : world P)
    (Hb : batches_of dl = init ++ [b])
    (Hgen : generations_ok model max_length num_beams (params w)
              (init ++ [b]) (gens ++ [g]))
    (Hscore : sacrebleu
                (bleu_predictions w
                 ++ flat_map (batch_predictions tok) (gens ++ [g]))
                (bleu_references w
                 ++ flat_map (batch_references tok) (init ++ [b]))
              = Ok score) :
  exists r w',
    evaluate dl max_length num_beams w
    = (Ok (r, input_ids b, batch_predictions tok g, batch_references tok b),
       w').
Proof.
  rewrite evaluate_model_unfold, Hb.
  rewrite (eval_loop_ok _ _ _ _ _ (gens ++ [g])); [|done|exact Hgen].
  cbn [extend_world record set_training set_bleu bleu_predictions
       bleu_references history params training].
  rewrite Hscore.
  assert (Hlen : length init = length gens).
  { apply Forall2_length in Hgen. rewrite !length_app in Hgen. simpl in Hgen.
    lia. }
  rewrite zip_with_app by exact Hlen.
  change (zip_with pair [b] [g]) with [(b, g)].
  rewrite locals_after_snoc.
  assert (Hds : len (dataset dl) <> 0).
  { unfold len. destruct (dataset dl) eqn:Hd; [|simpl; lia].
    apply batches_of_nil in Hd. rewrite Hb in Hd. by destruct init. }
  unfold py_truediv. destruct (Z.eqb_spec (len (dataset dl)) 0); [done|].
  by eexists _, _.
Qed.

(** X11. An evaluation that succeeds from an empty metric cache leaves
    the cache empty and the parameters untouched, so that a second
    evaluation right after it succeeds with the same results: nothing of
    an evaluation is carried into the next. *)
Theorem evaluation_is_repeatable (dl : DataLoader) (gens : list tensor2)
    (score : Q) (w : world P)
    (Hps : bleu_predictions w = []) (Hrs : bleu_references w = [])
    (Hne : dataset dl <> [])
    (Hgen : generations_ok model max_length num_beams (params w)
              (batches_of dl) gens)
    (Hscore : sacrebleu (flat_map (batch_predictions tok) gens)
                (flat_map (batch_references tok) (batches_of dl))
              = Ok score) :
  exists r1 w1 r2 w2,
    evaluate dl max_length num_beams w = (Ok r1, w1) /\
    evaluate dl max_length num_beams w1 = (Ok r2, w2) /\
    fst (fst (fst r2)) = fst (fst (fst r1)) /\
    params w2 = params w /\
    bleu_predictions w2 = [] /\ bleu_references w2 = [].
Proof.
  destruct (evaluate_model_ok tok model sacrebleu max_length num_beams dl gens
              score w Hne Hgen) as (ids & dp & dl' & Hrun1).
  { by rewrite Hps, Hrs. }
  set (w1 := world_after_evaluation tok max_length num_beams (batches_of dl)
               gens w) in *.
  destruct (evaluate_model_ok tok model sacrebleu max_length num_beams dl gens
              score w1 Hne Hgen Hscore) as (ids2 & dp2 & dl2 & Hrun2).
  eexists _, w1, _, _. split; [exact Hrun1|]. split; [exact Hrun2|]. done.
Qed.

End EvaluationProperties.

(** ** More on the diagnostic accuracy *)

Lemma mask_sum_pos (labels : tensor2) (pad_id : Z) :
  Exists (Exists (fun l => l <> pad_id)) labels ->
  0 < mask_sum (tensor_ne_scalar labels pad_id).
Proof.
  intros Hnonpad.
  pose proof (count_true_nonneg (concat (tensor_ne_scalar labels pad_id))) as Hge.
  destruct (Z.eq_dec (mask_sum (tensor_ne_scalar labels pad_id)) 0) as [H0|Hne];
    [|unfold mask_sum in *; lia].
  apply mask_sum_zero in H0. exfalso.
  apply Exists_exists in Hnonpad as (row & Hrow & Hex).
  apply Exists_exists in Hex as (l & Hl & Hne).
  rewrite Forall_forall in H0. specialize (H0 row Hrow).
  rewrite Forall_forall in H0. by apply Hne, H0.
Qed.

Lemma selected_row_perfect (row : list Z) (pad_id : Z) :
  count_true
    (map fst (filter (fun p => snd p = true)
                (zip (zip_with Z.eqb row row)
                     (map (fun v => negb (v =? pad_id)) row))))
  = count_true (map (fun v => negb (v =? pad_id)) row).
Proof.
  induction row as [|x row IH]; [done|].
  simpl. rewrite Z.eqb_refl, filter_cons. simpl.
  destruct (negb (x =? pad_id)).
  - rewrite decide_True by done. simpl. by rewrite !count_true_cons, IH.
  - rewrite decide_False by done. by rewrite count_true_cons, IH.
Qed.

Lemma masked_select_perfect (labels : tensor2) (pad_id : Z) :
  count_true (masked_select (tensor_eq labels labels)
                (tensor_ne_scalar labels pad_id))
  = mask_sum (tensor_ne_scalar labels pad_id).
Proof.
  unfold masked_select, mask_sum, tensor_eq, tensor_ne_scalar.
  induction labels as [|row labels IH]; [done|].
  simpl. by rewrite !count_true_app, selected_row_perfect, IH.
Qed.

(** X12. When the predictions equal the labels and at least one label is
    not the pad id, the diagnostic accuracy is 1. *)
Theorem accuracy_of_perfect_predictions (labels : tensor2) (pad_id : Z)
    (Hnonpad : Exists (Exists (fun l => l <> pad_id)) labels) :
  exists q, batch_word_accuracy labels labels pad_id = Ok q /\ (q == 1)%Q.
Proof.
  pose proof (mask_sum_pos labels pad_id Hnonpad) as Hpos.
  unfold batch_word_accuracy, py_truediv.
  rewrite masked_select_perfect.
  destruct (Z.eqb_spec (mask_sum (tensor_ne_scalar labels pad_id)) 0); [lia|].
  eexists. split; [reflexivity|].
  apply Qmult_inv_r. unfold Qeq. simpl. lia.
Qed.

Lemma accuracy_of_perfect_predictions_witness :
  exists q, batch_word_accuracy [[5; 8]; [9; 0]] [[5; 8]; [9; 0]] 0 = Ok q /\
            (q == 1)%Q.
Proof.
  apply (accuracy_of_perfect_predictions [[5; 8]; [9; 0]] 0).
  apply Exists_cons_hd, Exists_cons_hd. discriminate.
Defined.

Lemma selected_row_off_pad (pad_id : Z) (p p' l : list Z) :
  Forall3 (fun x x' y => y <> pad_id -> x = x') p p' l ->
  map fst (filter (fun q => snd q = true)
             (zip (zip_with Z.eqb p l) (map (fun v => negb (v =? pad_id)) l)))
  = map fst (filter (fun q => snd q = true)
               (zip (zip_with Z.eqb p' l) (map (fun v => negb (v =? pad_id)) l))).
Proof.
  induction 1 as [|x x' y p p' l Hxy _ IH]; [done|].
  simpl. rewrite !filter_cons. simpl.
  destruct (Z.eqb_spec y pad_id) as [->|Hne]; simpl.
  - exact IH.
  - by rewrite (Hxy Hne), IH.
Qed.

(** X13. The diagnostic accuracy does not depend on what is predicted at
    the positions where the label is the pad id: two tensors of
    predictions that agree wherever the label is not the pad id have the
    same accuracy, and raise together. *)
Theorem accuracy_ignores_pad_positions (pad_id : Z) (p p' labels : tensor2)
    (Hagree : agree_off_pad pad_id p p' labels) :
  batch_word_accuracy p labels pad_id = batch_word_accuracy p' labels pad_id.
Proof.
  unfold batch_word_accuracy. f_equal. f_equal.
  unfold masked_select, tensor_eq, tensor_ne_scalar.
  induction Hagree as [|r r' lr p p' l Hrow _ IH]; [done|].
  simpl. by rewrite (selected_row_off_pad _ _ _ _ Hrow), IH.
Qed.

Lemma accuracy_ignores_pad_positions_witness :
  batch_word_accuracy [[5; 7; 3]] [[5; 8; 0]] 0
  = batch_word_accuracy [[5; 7; 4]] [[5; 8; 0]] 0.
Proof.
  apply accuracy_ignores_pad_positions.
  repeat constructor; intros H; done.
Defined.

(** ** The shape of a collated batch *)

Lemma max_len_ge (l : list (list Z)) (s : list Z) :
  s ∈ l -> (length s <= max_len l)%nat.
Proof.
  induction 1 as [s l|s s' l _ IH]; simpl; lia.
Qed.

Lemma lookup_map {A B} (f : A -> B) (l : list A) (i : nat) :
  map f l !! i = f <$> l !! i.
Proof.
  revert i. induction l as [|x l IH]; intros [|i]; simpl; try done.
Qed.

Lemma pad_lookup (l : list (list Z)) (pad_id : Z) (i : nat) (s : list Z) :
  l !! i = Some s ->
  pad l pad_id !! i
  = Some (s ++ repeat pad_id (max_len l - length s)%nat) /\
  length (s ++ repeat pad_id (max_len l - length s)%nat) = max_len l.
Proof.
  intros Hi. unfold pad, tensor2. cbv zeta. split.
  - by rewrite lookup_map, Hi.
  - rewrite length_app, repeat_length.
    assert (length s <= max_len l)%nat
      by (apply max_len_ge; eapply list_elem_of_lookup_2; exact Hi).
    lia.
Qed.

(** X14. With [utils.pad] as the design describes it, a collated batch
    has one row per example in the order of the examples, the row of an
    example is its sequence followed by pad ids only, and all rows of
    [input_ids] (and, on their own, all rows of [labels]) have the length
    of the longest sequence of this batch. *)
Theorem collated_batch_is_rectangular (batch : list Example) (pad_id : Z) :
  let b := collation_function_for_seq2seq batch pad_id in
  length (input_ids b) = length batch /\
  length (labels b) = length batch /\
  forall i ex,
    batch !! i = Some ex ->
    exists row lrow,
      input_ids b !! i = Some row /\ labels b !! i = Some lrow /\
      row = ex_input_ids ex
            ++ repeat pad_id (length row - length (ex_input_ids ex))%nat /\
      lrow = ex_labels ex
             ++ repeat pad_id (length lrow - length (ex_labels ex))%nat /\
      length row = max_len (map ex_input_ids batch) /\
      length lrow = max_len (map ex_labels batch).
Proof.
  simpl. unfold pad at 1 2. rewrite !length_map.
  split; [done|]. split; [done|].
  intros i ex Hi.
  assert (Hids : map ex_input_ids batch !! i = Some (ex_input_ids ex)).
  { by rewrite lookup_map, Hi. }
  assert (Hlabs : map ex_labels batch !! i = Some (ex_labels ex)).
  { by rewrite lookup_map, Hi. }
  destruct (pad_lookup _ pad_id _ _ Hids) as [Hrow Hrowlen].
  destruct (pad_lookup _ pad_id _ _ Hlabs) as [Hlrow Hlrowlen].
  eexists _, _. split; [exact Hrow|]. split; [exact Hlrow|].
  rewrite Hrowlen, Hlrowlen. done.
Qed.

(** ** The demonstration script *)

Section DemoProperties.
Context {P : Type}.
Variable tok : Tokenizer.
Variable model : Model P.
Variable decode : list Z -> string.

Lemma text_unfold (input : string) (w : world P) :
  text tok model decode input w
  = let ids := [encode tok (String.append task_prefix input)] in
    let w2 := record (CallGenerate false ids 128 5)
                (record CallEval (set_training false w)) in
    match generate model (params w) false ids 128 5 with
    | Ok (first :: _) => (Ok (decode first), w2)
    | Ok [] => (Raise "IndexError", w2)
    | Raise e => (Raise e, w2)
    end.
Proof.
  unfold text, bind, model_eval, model_generate, lift, ret, task_prefix.
  cbn [set_training record params training history].
  by destruct (generate model _ _ _ _ _) as [[|first rest]|e].
Qed.

(** X15. [text] of the demonstration prompts the model with the text that
    [preprocess_function] builds for the same sentence, generates once,
    in inference mode, with the length bound and the beam width that are
    the defaults of the training script, returns the decoding of the
    first generated sequence ([IndexError] when there is none, the error
    of the generation when it fails), and leaves the model in inference
    mode. *)
Theorem demo_text_matches_training (input : string) (w : world P) :
  let prompt := String.append task_prefix input in
  let out := text tok model decode input w in
  (forall lang, texts_of (String.append task_prefix) lang [{[lang := input]}]
                = Ok [prompt]) /\
  history (snd out)
  = history w ++ [CallEval;
                  CallGenerate false [encode tok prompt]
                    (max_seq_length default_args) (beam_size default_args)] /\
  training (snd out) = false /\
  fst out
  = match generate model (params w) false [encode tok prompt] 128 5 with
    | Ok (first :: _) => Ok (decode first)
    | Ok [] => Raise "IndexError"
    | Raise e => Raise e
    end.
Proof.
  intros prompt out. split.
  - intros lang. simpl. unfold getitem. by rewrite lookup_singleton_eq.
  - subst out. rewrite text_unfold. cbv zeta. fold prompt.
    destruct (generate model (params w) false [encode tok prompt] 128 5)
      as [[|first rest]|e]; simpl; by rewrite <- app_assoc.
Qed.

End DemoProperties.

(** ** Runs of the properties on small inputs *)

(** The run of [Toy.three_steps] ends normally at step 3. *)
Lemma toy_three_steps_run :
  main Toy.tokenizer Toy.model Toy.sacrebleu Toy.three_steps Toy.train2
    Toy.eval3 Toy.sampled Toy.world0
  = (Ok 3,
     snd (main Toy.tokenizer Toy.model Toy.sacrebleu Toy.three_steps
            Toy.train2 Toy.eval3 Toy.sampled Toy.world0)).
Proof.
  rewrite (surjective_pairing (main _ _ _ _ _ _ _ _)) at 1.
  f_equal; vm_compute; reflexivity.
Qed.

Lemma training_schedule_witness :
  let run := main Toy.tokenizer Toy.model Toy.sacrebleu Toy.three_steps
               Toy.train2 Toy.eval3 Toy.sampled Toy.world0 in
  3 = Z.max 0 3 /\
  marks (history (snd run))
  = marks (history Toy.world0)
    ++ flat_map (iteration_marks Toy.three_steps 3) (seqZ 0 3) ++ [MarkSave].
Proof.
  exact (training_schedule Toy.tokenizer Toy.model Toy.sacrebleu
           Toy.three_steps Toy.train2 Toy.eval3 Toy.sampled Toy.world0
           (snd (main Toy.tokenizer Toy.model Toy.sacrebleu Toy.three_steps
                   Toy.train2 Toy.eval3 Toy.sampled Toy.world0)) 3 2 3
           eq_refl (conj eq_refl eq_refl) toy_three_steps_run).
Defined.

Lemma logging_and_evaluation_steps_witness :
  let run := main Toy.tokenizer Toy.model Toy.sacrebleu Toy.three_steps
               Toy.train2 Toy.eval3 Toy.sampled Toy.world0 in
  exists new,
    marks (history (snd run)) = marks (history Toy.world0) ++ new /\
    logged_at "train_loss" new = seqZ 1 3 /\
    logged_at "train_batch_word_accuracy" new
    = List.filter (fun s => s mod logging_steps Toy.three_steps =? 0)
        (seqZ 1 3) /\
    logged_at "eval/bleu" new
    = List.filter (evaluation_due Toy.three_steps 3) (seqZ 1 3).
Proof.
  exact (logging_and_evaluation_steps Toy.tokenizer Toy.model Toy.sacrebleu
           Toy.three_steps Toy.train2 Toy.eval3 Toy.sampled Toy.world0
           (snd (main Toy.tokenizer Toy.model Toy.sacrebleu Toy.three_steps
                   Toy.train2 Toy.eval3 Toy.sampled Toy.world0)) 3 2 3
           eq_refl toy_three_steps_run).
Defined.

Lemma final_evaluation_and_double_save_witness :
  let run := main Toy.tokenizer Toy.model Toy.sacrebleu Toy.three_steps
               Toy.train2 Toy.eval3 Toy.sampled Toy.world0 in
  exists before,
    marks (history (snd run))
    = before ++ [MarkLog ["eval/bleu"; "eval/generation_length"] 3;
                 MarkSave; MarkSave].
Proof.
  exact (final_evaluation_and_double_save Toy.tokenizer Toy.model
           Toy.sacrebleu Toy.three_steps Toy.train2 Toy.eval3 Toy.sampled
           Toy.world0
           (snd (main Toy.tokenizer Toy.model Toy.sacrebleu Toy.three_steps
                   Toy.train2 Toy.eval3 Toy.sampled Toy.world0))
           3 2 3 eq_refl (conj eq_refl eq_refl) ltac:(lia)
           toy_three_steps_run).
Defined.

Lemma zero_period_raises_after_first_step_witness :
  let run := main Toy.tokenizer Toy.model Toy.sacrebleu Toy2.zero_logging
               Toy.train2 Toy.eval3 Toy.sampled Toy.world0 in
  fst run = Raise ZeroDivisionError /\
  optimizer_steps (history (snd run))
  = optimizer_steps (history Toy.world0) ++ [0].
Proof.
  exact (zero_period_raises_after_first_step Toy.tokenizer Toy.model
           Toy.sacrebleu Toy2.zero_logging Toy.train2 Toy.eval3 Toy.sampled
           Toy.world0 2 1 (or_introl eq_refl) eq_refl ltac:(lia) eq_refl
           ltac:(simpl; lia) eq_refl).
Defined.


Lemma no_validation_evaluates_on_cut_of_train_witness :
  prepare_datasets Toy2.cut false (fun d => d) Toy2.keep Toy2.train_and_test
  = Ok (8%nat, 2%nat).
Proof.
  exact (no_validation_evaluates_on_cut_of_train Toy2.cut (fun d => d)
           Toy2.keep Toy2.train_and_test 10%nat 8%nat 2%nat 8%nat 2%nat
           eq_refl eq_refl eq_refl eq_refl eq_refl).
Defined.

Lemma validation_split_needs_test_witness :
  prepare_datasets Toy2.cut false (fun d => d) Toy2.keep
    Toy2.train_and_validation
  = Raise KeyError.
Proof.
  exact (validation_split_needs_test Toy2.cut (fun d => d) Toy2.keep
           Toy2.train_and_validation 3%nat 10%nat Toy2.train_and_validation
           eq_refl eq_refl eq_refl eq_refl).
Defined.

Lemma failed_evaluation_leaves_cache_witness :
  let out := evaluate_model Toy.tokenizer Toy2.picky_model Toy.sacrebleu
               Toy.eval3 128 5 Toy.world0 in
  fst out = Raise "RuntimeError" /\
  bleu_predictions (snd out) = ["a"; "abcd"] /\
  bleu_references (snd out) = [["b"]; ["abcd"]] /\
  compute_calls (history (snd out)) = [].
Proof.
  exact (failed_evaluation_leaves_cache Toy.tokenizer Toy2.picky_model
           Toy.sacrebleu 128 5 Toy.eval3 [Toy2.batch1] [] Toy2.batch2
           [input_ids Toy2.batch1] "RuntimeError" Toy.world0 eq_refl
           ltac:(repeat constructor) eq_refl).
Defined.

Lemma evaluation_returns_last_batch_witness :
  exists r w',
    evaluate_model Toy.tokenizer Toy.model Toy.sacrebleu Toy.eval3 128 5
      Toy.world0
    = (Ok (r, input_ids Toy2.batch2, ["abcdefg"], [["x"]]), w').
Proof.
  exact (evaluation_returns_last_batch Toy.tokenizer Toy.model Toy.sacrebleu
           128 5 Toy.eval3 [Toy2.batch1] Toy2.batch2
           [input_ids Toy2.batch1] (input_ids Toy2.batch2) (100 # 3)%Q
           Toy.world0 eq_refl ltac:(repeat constructor) eq_refl).
Defined.

Lemma evaluation_is_repeatable_witness :
  exists r1 w1 r2 w2,
    evaluate_model Toy.tokenizer Toy.model Toy.sacrebleu Toy.eval3 128 5
      Toy.world0 = (Ok r1, w1) /\
    evaluate_model Toy.tokenizer Toy.model Toy.sacrebleu Toy.eval3 128 5 w1
    = (Ok r2, w2) /\
    fst (fst (fst r2)) = fst (fst (fst r1)) /\
    params w2 = params Toy.world0 /\
    bleu_predictions w2 = [] /\ bleu_references w2 = [].
Proof.
  exact (evaluation_is_repeatable Toy.tokenizer Toy.model Toy.sacrebleu 128 5
           Toy.eval3 (map input_ids (batches_of Toy.eval3)) (100 # 3)%Q
           Toy.world0 eq_refl eq_refl ltac:(discriminate) toy_generations_ok
           eq_refl).
Defined.
